(** * sqlize_csv: importing GTFS tables into the merged store

    A shallow embedding of [better-bus-buffers/sqlize_csv.py] and the
    properties of its validation, namespacing, projection and calendar
    consistency code.

    Conventions of the embedding.
    - A Python [str] is the [string] of the bytes of its UTF-8 encoding; a
      character is a byte that begins it with the continuation bytes that
      follow ([chars]): the no-break space U+00A0 is the two bytes C2 A0.
      The whitespace that [str.strip] removes is that of Python 3.4 and
      later.  The decimal digits of [\d] and the [repr] of a
      string depend on the Unicode database of the interpreter: they are
      parameters.
    - A Python exception is a constructor of [exn]; a computation that can
      raise returns a [result].  [arcpy.AddError(msg)] followed by
      [raise BBB_SharedFunctions.CustomError] is [Raise (CustomError msg)]:
      the constructor carries the message that was emitted.
    - A lazy iterator of rows ([map], [itertools.imap], a generator) is a
      list of [result]s: the i-th element is what the i-th [next] yields
      or raises.
    - Dictionaries are [gmap]s, the [set] of column indices is a [gset];
      the literal [sql_schema] is kept as the list of its entries, which is
      the order Python 3 iterates it in.
    - Where the file branches on [ispy3], the Python 3 branch is followed.
    - A file is seen as the iterator [csv.reader] makes of it: a record is
      a list of fields, decoded, or the exception that reading it raises,
      which is [UnicodeDecodeError] where the bytes are not UTF-8. *)

From Stdlib Require Import ZArith Ascii String.
From stdpp Require Import gmap strings list fin_maps pretty.

(** ** Exceptions and results *)

Inductive exn : Type :=
| CustomError (msg : string)
| IndexError
| ValueError
| KeyError
| AttributeError
| TypeError
| StopIteration
| IOError
| UnboundLocalError
| UnicodeDecodeError.

Inductive result (A : Type) : Type :=
| Ok (a : A)
| Raise (e : exn).
Arguments Ok {A} a.
Arguments Raise {A} e.

Definition bind {A B} (r : result A) (k : A → result B) : result B :=
  match r with
  | Ok a => k a
  | Raise e => Raise e
  end.

Notation "'let*' x ':=' r 'in' k" := (bind r (λ x, k))
  (at level 10, x name, r at level 100, k at level 200, only parsing).

Definition is_ok {A} (r : result A) : bool :=
  match r with Ok _ => true | Raise _ => false end.

Definition is_custom_error {A} (r : result A) : bool :=
  match r with Raise (CustomError _) => true | _ => false end.

(** A lazy iterator: each element is yielded, or raised, on demand. *)
Definition iter (A : Type) : Type := list (result A).

Definition py_map {A B} (f : A → result B) (it : iter A) : iter B :=
  map (λ r, bind r f) it.

(** Consuming an iterator to its end; the first exception propagates. *)
Fixpoint consume {A} (it : iter A) : result (list A) :=
  match it with
  | [] => Ok []
  | Ok a :: rest => let* l := consume rest in Ok (a :: l)
  | Raise e :: _ => Raise e
  end.

(** ** Strings *)

Definition dq : string := String (ascii_of_nat 34) "".
Definition sq : string := String (ascii_of_nat 39) "".

(** The newline character. *)
Definition nl : string := String (ascii_of_nat 10) "".

(** The class [0-9]. *)
Definition is_digit (c : ascii) : bool :=
  let n := nat_of_ascii c in (48 <=? n) && (n <=? 57).

(** The class [A-Za-z0-9]. *)
Definition is_alnum (c : ascii) : bool :=
  let n := nat_of_ascii c in
  is_digit c || ((65 <=? n) && (n <=? 90)) || ((97 <=? n) && (n <=? 122)).

(** The UTF-8 bytes of a code point. *)
Definition utf8 (n : N) : string :=
  let byte (lead k : N) : ascii := ascii_of_N (lead + (n / 64 ^ k) mod 64) in
  if (n <? 128)%N then String (ascii_of_N n) ""
  else if (n <? 2048)%N then String (ascii_of_N (192 + n / 64)) (String (byte 128 0) "")%N
  else if (n <? 65536)%N
  then String (ascii_of_N (224 + n / 4096)) (String (byte 128 1) (String (byte 128 0) ""))%N
  else String (ascii_of_N (240 + n / 262144))
         (String (byte 128 2) (String (byte 128 1) (String (byte 128 0) "")))%N.

(** The code points of the characters [c] with [c.isspace()]: those that
    [str.strip] removes. *)
Definition whitespace : list N :=
  [9; 10; 11; 12; 13; 28; 29; 30; 31; 32; 133; 160; 5760;
   8192; 8193; 8194; 8195; 8196; 8197; 8198; 8199; 8200; 8201; 8202;
   8232; 8233; 8239; 8287; 12288]%N.

Definition spaces : list string := utf8 <$> whitespace.

(** [s.startswith(prefix)] *)
Fixpoint startswith (s prefix : string) {struct prefix} : bool :=
  match prefix with
  | String c prefix' =>
      match s with
      | String d s' => Ascii.eqb c d && startswith s' prefix'
      | EmptyString => false
      end
  | EmptyString => true
  end.

(** The whitespace character a string begins with. *)
Definition leading_space (s : string) : option string :=
  find (startswith s) spaces.

(** [s.lstrip()], byte by byte: [skip] counts the bytes still to drop of
    the whitespace character that was found. *)
Fixpoint lstrip_from (skip : nat) (s : string) : string :=
  match s with
  | String _ s' =>
      match skip with
      | S skip' => lstrip_from skip' s'
      | 0 =>
          match leading_space s with
          | Some w => lstrip_from (String.length w - 1) s'
          | None => s
          end
      end
  | EmptyString => EmptyString
  end.

Definition lstrip (s : string) : string := lstrip_from 0 s.

(** [s.rstrip()]: the string up to the point from which all is
    whitespace. *)
Fixpoint rstrip (s : string) : string :=
  match s with
  | String c s' => if String.eqb (lstrip s) "" then "" else String c (rstrip s')
  | EmptyString => EmptyString
  end.

(** [s.strip()] *)
Definition strip (s : string) : string := rstrip (lstrip s).

(** The bytes from 0x80 to 0xBF continue a character. *)
Definition is_continuation (b : ascii) : bool :=
  let n := nat_of_ascii b in (128 <=? n) && (n <? 192).

Definition continues (c : string) : bool :=
  match c with
  | String b _ => is_continuation b
  | EmptyString => false
  end.

(** The characters of a string, each as the string of its bytes. *)
Fixpoint chars (s : string) : list string :=
  match s with
  | String b s' =>
      match chars s' with
      | c :: cs => if continues c then String b c :: cs else String b "" :: c :: cs
      | [] => [String b ""]
      end
  | EmptyString => []
  end.

(** [s.endswith(suffix)] *)
Fixpoint endswith (s suffix : string) : bool :=
  String.eqb s suffix ||
  match s with
  | String _ s' => endswith s' suffix
  | EmptyString => false
  end.

(** [re.sub("[^A-Za-z0-9]", "", s)] *)
Fixpoint sub_non_alnum (s : string) : string :=
  match s with
  | String c s' => if is_alnum c then String c (sub_non_alnum s') else sub_non_alnum s'
  | EmptyString => EmptyString
  end.

(** [sep.join(l)] *)
Definition join (sep : string) (l : list string) : string := String.concat sep l.

(** [needle in s] for strings. *)
Fixpoint contains (s needle : string) : bool :=
  String.prefix needle s ||
  match s with
  | String _ s' => contains s' needle
  | EmptyString => false
  end.

(** [enumerate(l)] *)
Definition enumerate {A} (l : list A) : list (nat * A) := zip (seq 0 (length l)) l.

(** [l.index(x)], which raises [ValueError] when [x] is not in [l]. *)
Fixpoint index_from (n : nat) (x : string) (l : list string) : result nat :=
  match l with
  | [] => Raise ValueError
  | y :: l' => if String.eqb y x then Ok n else index_from (S n) x l'
  end.
Definition index (l : list string) (x : string) : result nat := index_from 0 x l.

(** [row[idx]] *)
Definition getitem {A} (row : list A) (idx : nat) : result A :=
  match row !! idx with
  | Some x => Ok x
  | None => Raise IndexError
  end.

(** A [for] loop whose body updates a state and may raise. *)
Fixpoint for_each {A S} (l : list A) (body : S → A → result S) (st : S) : result S :=
  match l with
  | [] => Ok st
  | x :: l' => let* st' := body st x in for_each l' body st'
  end.

(** ** [str] of lists and tuples *)

(** [str(l)] for a list whose elements are shown by [show]. *)
Definition str_list {A} (show : A → string) (l : list A) : string :=
  "[" +:+ join ", " (show <$> l) +:+ "]".

(** [str(t)] for a tuple. *)
Definition str_tuple {A} (show : A → string) (l : list A) : string :=
  match l with
  | [x] => "(" +:+ show x +:+ ",)"
  | _ => "(" +:+ join ", " (show <$> l) +:+ ")"
  end.

(** ** The schema registry *)

Inductive sql_type : Type := TEXT | REAL | INTEGER.

(** [True] for the columns the GTFS requires, the default value otherwise. *)
Inductive requirement : Type := Required | Default (v : string).

Definition table_spec : Type := list (string * (sql_type * requirement)).

Definition csv_fnames : list string :=
  ["stops.txt"; "calendar.txt"; "calendar_dates.txt"; "stop_times.txt";
   "trips.txt"; "routes.txt"; "frequencies.txt"].

Definition sql_schema : list (string * table_spec) :=
  [ ("stops",
      [ ("stop_id", (TEXT, Required));
        ("stop_code", (TEXT, Default "NULL"));
        ("stop_name", (TEXT, Required));
        ("stop_desc", (TEXT, Default "NULL"));
        ("stop_lat", (REAL, Required));
        ("stop_lon", (REAL, Required));
        ("zone_id", (TEXT, Default "NULL"));
        ("stop_url", (TEXT, Default "NULL"));
        ("location_type", (INTEGER, Default "NULL"));
        ("parent_station", (TEXT, Default "NULL")) ]);
    ("calendar",
      [ ("service_id", (TEXT, Required));
        ("monday", (INTEGER, Required));
        ("tuesday", (INTEGER, Required));
        ("wednesday", (INTEGER, Required));
        ("thursday", (INTEGER, Required));
        ("friday", (INTEGER, Required));
        ("saturday", (INTEGER, Required));
        ("sunday", (INTEGER, Required));
        ("start_date", (TEXT, Required));
        ("end_date", (TEXT, Required)) ]);
    ("calendar_dates",
      [ ("service_id", (TEXT, Required));
        ("date", (TEXT, Required));
        ("exception_type", (INTEGER, Required)) ]);
    ("stop_times",
      [ ("trip_id", (TEXT, Required));
        ("arrival_time", (REAL, Required));
        ("departure_time", (REAL, Required));
        ("stop_id", (TEXT, Required));
        ("stop_sequence", (INTEGER, Required));
        ("stop_headsign", (TEXT, Default "NULL"));
        ("pickup_type", (INTEGER, Default "0"));
        ("drop_off_type", (INTEGER, Default "0"));
        ("shape_dist_traveled", (REAL, Default "NULL")) ]);
    ("trips",
      [ ("route_id", (TEXT, Required));
        ("service_id", (TEXT, Required));
        ("trip_id", (TEXT, Required));
        ("trip_headsign", (TEXT, Default "NULL"));
        ("trip_short_name", (TEXT, Default "NULL"));
        ("direction_id", (INTEGER, Default "NULL"));
        ("block_id", (TEXT, Default "NULL"));
        ("shape_id", (TEXT, Default "NULL")) ]);
    ("routes",
      [ ("route_id", (TEXT, Required));
        ("agency_id", (TEXT, Default "NULL"));
        ("route_short_name", (TEXT, Default "NULL"));
        ("route_long_name", (TEXT, Default "NULL"));
        ("route_desc", (TEXT, Default "NULL"));
        ("route_type", (INTEGER, Required));
        ("route_url", (TEXT, Default "NULL"));
        ("route_color", (TEXT, Default "NULL"));
        ("route_text_color", (TEXT, Default "NULL")) ]);
    ("frequencies",
      [ ("trip_id", (TEXT, Required));
        ("start_time", (REAL, Required));
        ("end_time", (REAL, Required));
        ("headway_secs", (INTEGER, Required)) ]) ].

(** [d[key]] on a dictionary literal, kept in its written order. *)
Fixpoint dict_get {V} (d : list (string * V)) (key : string) : result V :=
  match d with
  | [] => Raise KeyError
  | (k, v) :: d' => if String.eqb k key then Ok v else dict_get d' key
  end.

(** [key in d] *)
Definition dict_has {V} (d : list (string * V)) (key : string) : bool :=
  existsb (λ kv, String.eqb kv.1 key) d.

(** [x in l] for a list of strings. *)
Definition list_has (l : list string) (x : string) : bool :=
  existsb (λ y, String.eqb y x) l.

(** ** Stand-ins for the collaborators

    The properties below hold for any Python float and any time parser,
    path library, date parser and Unicode database.  The examples are run
    with these. *)

(** [s.split(sep, 1)] as a pair; the second part is [None] without [sep]. *)
Fixpoint split_once (sep : ascii) (s : string) : string * option string :=
  match s with
  | String c s' =>
      if Ascii.eqb c sep then (EmptyString, Some s')
      else let '(a, b) := split_once sep s' in (String c a, b)
  | EmptyString => (EmptyString, None)
  end.

(** The number a string of decimal digits writes. *)
Fixpoint read_digits (s : string) (acc : Z) : option Z :=
  match s with
  | String c s' =>
      if is_digit c then read_digits s' (10 * acc + Z.of_nat (nat_of_ascii c - 48))
      else None
  | EmptyString => Some acc
  end.

Definition read_number (s : string) : option Z :=
  match s with
  | EmptyString => None
  | _ => read_digits s 0
  end.

(** Floats in thousandths: [-]digits[.digits], with at most three
    decimals. *)
Definition milli_unsigned (s : string) : option Z :=
  let '(whole, decimals) := split_once "." s in
  match read_number whole, decimals with
  | Some n, None => Some (1000 * n)%Z
  | Some n, Some d =>
      match String.length d, read_number d with
      | 1, Some m => Some (1000 * n + 100 * m)%Z
      | 2, Some m => Some (1000 * n + 10 * m)%Z
      | 3, Some m => Some (1000 * n + m)%Z
      | _, _ => None
      end
  | None, _ => None
  end.

Definition milli_float (s : string) : option Z :=
  match s with
  | String c s' => if Ascii.eqb c "-" then Z.opp <$> milli_unsigned s' else milli_unsigned s
  | EmptyString => None
  end.

Definition milli_lit (z : Z) : Z := (1000 * z)%Z.

Definition milli_repr (x : Z) : string :=
  pretty (x / 1000)%Z +:+ "." +:+ pretty (x mod 1000)%Z.

(** Modelled from the spec: [hms.str2sec], which is not in this file; the
    time parser maps a string of the shape H:MM:SS to the seconds since
    midnight.  A sign in front is taken to negate the count. *)
Definition hms_str2sec (s : string) : Z :=
  let '(negative, body) :=
    match s with
    | String c s' => if Ascii.eqb c "-" then (true, s') else (false, s)
    | EmptyString => (false, s)
    end in
  let '(h, rest) := split_once ":" body in
  let '(m, sec) := split_once ":" (default EmptyString rest) in
  let number t := default 0%Z (read_number t) in
  let seconds := (3600 * number h + 60 * number m + number (default EmptyString sec))%Z in
  if negative then (- seconds)%Z else seconds.

(** [repr] on a string whose characters outside ASCII are all printable:
    Python keeps those as they are. *)

Definition hex_digit (n : nat) : ascii :=
  if (n <? 10)%nat then ascii_of_nat (48 + n) else ascii_of_nat (87 + n).

Definition repr_char (quote c : ascii) : string :=
  let n := nat_of_ascii c in
  if Ascii.eqb c quote || Ascii.eqb c "\"%char then String "\"%char (String c "")
  else if (n =? 9)%nat then "\t"
  else if (n =? 10)%nat then "\n"
  else if (n =? 13)%nat then "\r"
  else if (n <? 32)%nat || (n =? 127)%nat
       then String "\"%char (String "x"%char (String (hex_digit (n / 16)) (String (hex_digit (n mod 16)) "")))
  else String c "".

Fixpoint repr_body (quote : ascii) (s : string) : string :=
  match s with
  | String c s' => repr_char quote c +:+ repr_body quote s'
  | EmptyString => EmptyString
  end.

(** Python quotes with an apostrophe, unless the string has one and has no
    double quote. *)
Definition repr_quote (s : string) : ascii :=
  if contains s sq && negb (contains s dq) then ascii_of_nat 34 else ascii_of_nat 39.

Definition repr_printable (s : string) : string :=
  String (repr_quote s) (repr_body (repr_quote s) s +:+ String (repr_quote s) "").

(** [\d] on the ASCII characters. *)
Definition ascii_decimal (c : string) : bool :=
  match c with
  | String b EmptyString => is_digit b
  | _ => false
  end.

(** [\d] on the ASCII digits and on the Arabic-Indic ones, U+0660 to
    U+0669. *)
Definition two_scripts_decimal (c : string) : bool :=
  ascii_decimal c
  || list_has (utf8 <$> [1632; 1633; 1634; 1635; 1636; 1637; 1638; 1639; 1640; 1641]%N) c.

(** Eight decimal digits: the dates the examples use. *)
Definition eight_digits (s : string) : bool :=
  (String.length s =? 8)%nat && bool_decide (is_Some (read_number s)).

Definition slash_join (a b : string) : string := a +:+ "/" +:+ b.

(** The part of a path after its last slash. *)
Fixpoint slash_basename (path : string) : string :=
  match path with
  | String c path' =>
      if contains path' "/" then slash_basename path'
      else if Ascii.eqb c "/" then path' else path
  | EmptyString => EmptyString
  end.

(** ** The import pipeline *)

Section Sqlize.

(** Python floats, and the collaborators that are not part of this file:
    - [float s] is [float(s)], [None] standing for [ValueError];
    - [float_lit z] is the float literal of the integer [z] ([90.0]);
    - [fle] is [<=] on floats; [repr_float] is [repr];
    - [str2sec] is [hms.str2sec];
    - [strptime_Ymd s] tells whether [datetime.strptime(s, '%Y%m%d')]
      succeeds;
    - [path_join] is [os.path.join], [basename] is [os.path.basename] and
      [dataset_label d] is [os.path.basename(os.path.normpath(d))];
    - [is_decimal c] tells whether [\d] matches the character [c], that
      is, whether [c] is a decimal digit of Unicode;
    - [repr_str] is [repr] on strings. *)
Variable F : Type.
Variable float : string → option F.
Variable float_lit : Z → F.
Variable fle : F → F → bool.
Variable repr_float : F → string.
Variable str2sec : string → Z.
Variable strptime_Ymd : string → bool.
Variable path_join : string → string → string.
Variable basename : string → string.
Variable dataset_label : string → string.
Variable is_decimal : string → bool.
Variable repr_str : string → string.

(** A field of a row: the text read from the file, or the number a
    validator has put in its place. *)
Inductive value : Type :=
| VStr (s : string)
| VInt (z : Z)
| VFloat (x : F).

(** [field.strip()]: numbers have no such method. *)
Definition value_strip (v : value) : result string :=
  match v with
  | VStr s => Ok (strip s)
  | _ => Raise AttributeError
  end.

(** *** [make_add_agency_labels] *)

Definition is_id_column (field : string) : bool :=
  endswith field "_id" && negb (String.eqb field "direction_id").

(** The set [s] of the columns that need labelling. *)
Definition labelled_columns (columns : list string) : gset nat :=
  foldl (λ (s : gset nat) p, if is_id_column p.2 then {[p.1]} ∪ s else s)
        ∅ (enumerate columns).

Definition add_labels (service : string) (s : gset nat) (row : list value)
  : result (list value) :=
  for_each (elements s)
    (λ ret idx,
       let* field := getitem row idx in
       let* stripped := value_strip field in
       Ok (<[idx := VStr (service +:+ ":" +:+ stripped)]> ret))
    row.

Definition make_add_agency_labels (service : string) (columns : list string)
  : list value → result (list value) :=
  let service := sub_non_alnum service in
  let s := labelled_columns columns in
  add_labels service s.

(** *** [make_remove_extra_fields] *)

(** [out_row.pop(idx)] *)
Definition pop {A} (out_row : list A) (idx : nat) : result (list A) :=
  match out_row !! idx with
  | Some _ => Ok (delete idx out_row)
  | None => Raise IndexError
  end.

(** The indices of the extraneous columns, last first. *)
Definition extraneous_columns (tbl : table_spec) (columns : list string) : list nat :=
  reverse
    (foldl (λ cols p, if negb (dict_has tbl p.2) then cols ++ [p.1] else cols)
           [] (enumerate columns)).

Definition wrong_fields_msg (tablename : string) (columns : list string)
    (str_in_row : string) : string :=
  "GTFS table " +:+ tablename +:+
  " contains at least one row with the wrong number of fields. Fields: " +:+
  str_list repr_str columns +:+ "; Row: " +:+ str_in_row.

(** What the closure [drop_fields] captures. *)
Record remove_extra_fields : Type := RemoveExtraFields {
  rf_tablename : string;
  rf_columns : list string;
  orig_num_fields : nat;
  cols : list nat
}.

(** [str_row] is [str] at the type of the row the closure is applied to:
    the header is a list of strings, a data row a tuple of values. *)
Definition drop_fields {A} (env : remove_extra_fields) (str_row : list A → string)
    (in_row : list A) : result (list A) :=
  let out_row := in_row in
  if negb (length out_row =? orig_num_fields env)%nat
  then Raise (CustomError
                (wrong_fields_msg (rf_tablename env) (rf_columns env) (str_row in_row)))
  else for_each (cols env) pop out_row.

Definition make_remove_extra_fields (tablename : string) (columns : list string)
  : result remove_extra_fields :=
  let orig_num_fields := length columns in
  let* tbl := dict_get sql_schema tablename in
  let cols := extraneous_columns tbl columns in
  Ok (RemoveExtraFields tablename columns orig_num_fields cols).

(** *** [check_for_required_fields] *)

Definition missing_field_msg (tablename dataset col : string) : string :=
  "GTFS file " +:+ tablename +:+ ".txt in dataset " +:+ dataset +:+
  " is missing required field '" +:+ col +:+ "'. Failed to SQLize GTFS data".

Definition is_required (r : requirement) : bool :=
  match r with Required => true | Default _ => false end.

Definition check_for_required_fields (tablename : string) (columns : list string)
    (dataset : string) : result unit :=
  let* tbl := dict_get sql_schema tablename in
  for_each tbl
    (λ _ entry,
       if is_required entry.2.2
       then if negb (list_has columns entry.1)
            then Raise (CustomError (missing_field_msg tablename dataset entry.1))
            else Ok tt
       else Ok tt)
    tt.

(** *** [check_time_str]: the pattern [^-?\d?\d:\d\d:\d\d$]

    The pattern is matched against the characters of the string. *)

(** [$]: the end of the string, or the newline that ends it. *)
Definition at_end (rest : list string) : bool :=
  match rest with
  | [] => true
  | [c] => String.eqb c nl
  | _ => false
  end.

(** [:\d\d:\d\d$] *)
Definition match_minutes_seconds (cs : list string) : bool :=
  match cs with
  | c1 :: m1 :: m2 :: c2 :: s1 :: s2 :: rest =>
      String.eqb c1 ":" && is_decimal m1 && is_decimal m2 &&
      String.eqb c2 ":" && is_decimal s1 && is_decimal s2 && at_end rest
  | _ => false
  end.

(** [\d?\d] and what follows: two digits are tried first, then one. *)
Definition match_hours (cs : list string) : bool :=
  match cs with
  | h1 :: h2 :: rest =>
      (is_decimal h1 && is_decimal h2 && match_minutes_seconds rest) ||
      (is_decimal h1 && match_minutes_seconds (h2 :: rest))
  | _ => false
  end.

(** [-?] takes the sign when there is one, and gives it back when the
    rest does not match. *)
Definition match_time (cs : list string) : bool :=
  match cs with
  | c :: rest =>
      if String.eqb c "-" then match_hours rest || match_hours cs else match_hours cs
  | [] => false
  end.

Definition check_time_str (s : string) : bool := match_time (chars s).

(** *** [smarter_convert_times] *)

Fixpoint map_result {A B} (f : A → result B) (l : list A) : result (list B) :=
  match l with
  | [] => Ok []
  | x :: l' => let* y := f x in let* ys := map_result f l' in Ok (y :: ys)
  end.

Definition empty_time_msg (GTFSdir : string) : string :=
  "GTFS dataset " +:+ GTFSdir +:+
  " contains empty values for arrival_time or departure_time in stop_times.txt.  Although the GTFS spec allows empty values for these fields, this toolbox requires exact time values for all stops.  You will not be able to use this dataset for your analysis.".

Definition invalid_time_msg (col fname GTFSdir field : string) : string :=
  "Column " +:+ dq +:+ col +:+ dq +:+ " in file " +:+ path_join GTFSdir fname +:+
  " has an invalid value: " +:+ field +:+ ".".

(** The body of the loop of [convert_time_columns], for one time column. *)
Definition convert_time_column (col_names : list string) (fname GTFSdir : string)
    (row out_row : list value) (idx : nat) : result (list value) :=
  let* v := getitem row idx in
  let* field := value_strip v in
  if check_time_str field then Ok (<[idx := VInt (str2sec field)]> out_row)
  else if String.eqb field "" then Raise (CustomError (empty_time_msg GTFSdir))
  else match float field with
       | Some x => Ok (<[idx := VFloat x]> out_row)
       | None =>
           let* col := getitem col_names idx in
           Raise (CustomError (invalid_time_msg col fname GTFSdir field))
       end.

Definition convert_time_columns (col_names : list string) (fname GTFSdir : string)
    (time_column_idxs : list nat) (row : list value) : result (list value) :=
  let out_row := row in
  for_each time_column_idxs (convert_time_column col_names fname GTFSdir row) out_row.

Definition smarter_convert_times (rows : iter (list value)) (col_names : list string)
    (fname GTFSdir : string) (time_columns : list string)
  : result (iter (list value)) :=
  let* time_column_idxs := map_result (index col_names) time_columns in
  Ok (py_map (convert_time_columns col_names fname GTFSdir time_column_idxs) rows).

(** *** [check_date_fields] *)

Definition invalid_date_msg (col fname date : string) : string :=
  "Column " +:+ dq +:+ col +:+ dq +:+ " in file " +:+ fname +:+
  " has an invalid value: " +:+ date +:+
  ". Date fields must be in YYYYMMDD format. Please check the date field formatting in calendar.txt and calendar_dates.txt.".

Definition check_date_cols (col_names : list string) (tablename fname : string)
    (row : list value) : result (list value) :=
  let* date_cols :=
    if String.eqb tablename "calendar" then Ok ["start_date"; "end_date"]
    else if String.eqb tablename "calendar_dates" then Ok ["date"]
    else Raise UnboundLocalError in
  let* date_column_idxs := map_result (index col_names) date_cols in
  let* _ :=
    for_each date_column_idxs
      (λ _ idx,
         let* date := getitem row idx in
         match date with
         | VStr d =>
             if strptime_Ymd d then Ok tt
             else let* col := getitem col_names idx in
                  Raise (CustomError (invalid_date_msg col fname d))
         | _ => Raise TypeError
         end)
      tt in
  Ok row.

Definition check_date_fields (rows : iter (list value)) (col_names : list string)
    (tablename fname : string) : iter (list value) :=
  py_map (check_date_cols col_names tablename fname) rows.

(** *** [check_latlon_fields] *)

(** ["%s" % v] *)
Definition str_value (v : value) : string :=
  match v with
  | VStr s => s
  | VInt z => pretty z
  | VFloat x => repr_float x
  end.

Definition repr_value (v : value) : string :=
  match v with
  | VStr s => repr_str s
  | VInt z => pretty z
  | VFloat x => repr_float x
  end.

(** [float(v)] *)
Definition value_float (v : value) : option F :=
  match v with
  | VStr s => float s
  | VInt z => Some (float_lit z)
  | VFloat x => Some x
  end.

Definition non_numerical_msg (which stop_id fname val : string) : string :=
  "stop_id " +:+ dq +:+ stop_id +:+ dq +:+ " in " +:+ fname +:+
  " contains an invalid non-numerical value for the " +:+ which +:+ " field: " +:+
  dq +:+ val +:+ dq +:+
  ". Please double-check all lat/lon values in your stops.txt file.".

Definition out_of_range_msg (which range stop_id fname val : string) : string :=
  "stop_id " +:+ dq +:+ stop_id +:+ dq +:+ " in " +:+ fname +:+
  " contains an invalid value outside the range " +:+ range +:+ " the " +:+ which +:+
  " field: " +:+ dq +:+ val +:+ dq +:+ ". " +:+ which +:+
  " values must be in valid WGS 84 coordinates.  Please double-check all lat/lon values in your stops.txt file.".

Definition check_latlon_cols (col_names : list string) (fname : string)
    (row : list value) : result (list value) :=
  let* i_id := index col_names "stop_id" in
  let* stop_id := getitem row i_id in
  let* i_lat := index col_names "stop_lat" in
  let* stop_lat := getitem row i_lat in
  let* i_lon := index col_names "stop_lon" in
  let* stop_lon := getitem row i_lon in
  match value_float stop_lat with
  | None =>
      Raise (CustomError
               (non_numerical_msg "stop_lat" (str_value stop_id) fname (str_value stop_lat)))
  | Some stop_lat_float =>
      match value_float stop_lon with
      | None =>
          Raise (CustomError
                   (non_numerical_msg "stop_lon" (str_value stop_id) fname (str_value stop_lon)))
      | Some stop_lon_float =>
          if negb (fle (float_lit (-90)) stop_lat_float && fle stop_lat_float (float_lit 90))
          then Raise (CustomError
                        (out_of_range_msg "stop_lat" "(-90, 90)" (str_value stop_id) fname
                                          (str_value stop_lat)))
          else if negb (fle (float_lit (-180)) stop_lon_float
                        && fle stop_lon_float (float_lit 180))
          then Raise (CustomError
                        (out_of_range_msg "stop_lon" "(-180, 180)" (str_value stop_id) fname
                                          (str_value stop_lon)))
          else Ok row
      end
  end.

Definition check_latlon_fields (rows : iter (list value)) (col_names : list string)
    (fname : string) : iter (list value) :=
  py_map (check_latlon_cols col_names fname) rows.

(** *** [handle_file]

    The file system maps a path to the iterator [csv.reader] makes of the
    file there; what [handle_file] hands to [cur.executemany] is returned:
    the table name, the column list and the rows. *)

Definition file_system : Type := string → option (iter (list string)).

Definition insertion : Type := string * list string * list (list value).

(** [fname[:-4]] *)
Definition drop_last4 (fname : string) : string :=
  String.substring 0 (String.length fname - 4) fname.

(** The generator [([x.strip() for x in r] for r in reader if len(r) > 0)]:
    an exception of the reader ends it. *)
Fixpoint stripped_records (reader : iter (list string)) : iter (list string) :=
  match reader with
  | Ok r :: reader' =>
      if (0 <? length r)%nat then Ok (strip <$> r) :: stripped_records reader'
      else stripped_records reader'
  | Raise e :: _ => [Raise e]
  | [] => []
  end.

Definition handle_file (fs : file_system) (fname service_label : string)
  : result insertion :=
  let tablename := if endswith fname ".txt" then drop_last4 fname else fname in
  let tablename := basename tablename in
  let* f := match fs fname with Some f => Ok f | None => Raise IOError end in
  let reader := stripped_records f in
  match reader with
  | [] => Raise StopIteration
  | Raise e :: _ => Raise e
  | Ok header :: reader =>
      let columns := strip <$> header in
      let* _ := check_for_required_fields tablename columns service_label in
      let reader : iter (list value) := py_map (λ r : list string, Ok (VStr <$> r)) reader in
      let* rows :=
        if String.eqb tablename "stop_times"
        then smarter_convert_times reader columns fname service_label
               ["arrival_time"; "departure_time"]
        else if String.eqb tablename "frequencies"
        then smarter_convert_times reader columns fname service_label
               ["start_time"; "end_time"]
        else if list_has ["calendar"; "calendar_dates"] tablename
        then Ok (check_date_fields reader columns tablename fname)
        else if String.eqb tablename "stops"
        then Ok (check_latlon_fields reader columns fname)
        else Ok reader in
      let labeller := make_add_agency_labels service_label columns in
      let* columns_filter := make_remove_extra_fields tablename columns in
      let* columns := drop_fields columns_filter (str_list repr_str) columns in
      let rows := py_map labeller rows in
      let rows := py_map (drop_fields columns_filter (str_tuple repr_value)) rows in
      let* inserted := consume rows in
      Ok (tablename, columns, inserted)
  end.

(** *** [handle_agency] *)

(** [os.path.exists] *)
Definition path_exists (fs : file_system) (path : string) : bool :=
  match fs path with Some _ => true | None => false end.

Definition missing_files_msg (label : string) (missing_files : list string) : string :=
  "GTFS dataset " +:+ label +:+ " is missing files required for this tool: " +:+
  str_list repr_str missing_files.

(** The body of the loop over [csv_fnames]: the state is
    [csvs_withPaths], [missing_files] and [has_a_calendar]. *)
Definition scan_file (fs : file_system) (gtfs_dir : string)
    (state : list string * list string * bool) (fname : string)
  : list string * list string * bool :=
  let '(csvs_withPaths, missing_files, has_a_calendar) := state in
  let fname2 := path_join gtfs_dir fname in
  if path_exists fs fname2
  then (csvs_withPaths ++ [fname2], missing_files,
        if list_has ["calendar_dates.txt"; "calendar.txt"] fname
        then true else has_a_calendar)
  else (csvs_withPaths,
        (if negb (list_has ["calendar.txt"; "calendar_dates.txt"; "frequencies.txt"] fname)
         then missing_files ++ [fname] else missing_files),
        has_a_calendar).

Definition scan_files (fs : file_system) (gtfs_dir : string)
  : list string * list string * bool :=
  foldl (scan_file fs gtfs_dir) ([], [], false) csv_fnames.

(** [missing_files] when the loop and the calendar test are done. *)
Definition missing_files (fs : file_system) (gtfs_dir : string) : list string :=
  let '(_, missing_files, has_a_calendar) := scan_files fs gtfs_dir in
  if negb has_a_calendar
  then missing_files ++ ["calendar.txt or calendar_dates.txt"]
  else missing_files.

Definition decoding_failed_msg (label : string) : string :=
  "Unicode decoding of GTFS dataset " +:+ label +:+
  " failed. Please ensure that your GTFS files have the proper utf-8 encoding required by the GTFS specification.".

(** The handler [except UnicodeDecodeError:] around the body of
    [handle_agency]. *)
Definition except_UnicodeDecodeError {A} (label : string) (body : result A) : result A :=
  match body with
  | Raise UnicodeDecodeError => Raise (CustomError (decoding_failed_msg label))
  | _ => body
  end.

Definition handle_agency (fs : file_system) (gtfs_dir : string)
  : result (list insertion) :=
  let label := dataset_label gtfs_dir in
  except_UnicodeDecodeError label
    (let csvs_withPaths := (scan_files fs gtfs_dir).1.1 in
     let missing_files := missing_files fs gtfs_dir in
     match missing_files with
     | _ :: _ => Raise (CustomError (missing_files_msg label missing_files))
     | [] => map_result (λ fname2, handle_file fs fname2 label) csvs_withPaths
     end).

(** *** [check_nonoverlapping_dateranges]

    The store is seen through the two queries the function makes: whether
    a table [calendar] exists, and its rows
    [(service_id, start_date, end_date)]. *)

Definition calendar_row : Type := string * string * string.

(** [a > b] on strings. *)
Definition str_gt (a b : string) : bool := String.ltb b a.

Definition dict_item (d : gmap string string) (key : string) : result string :=
  match d !! key with
  | Some v => Ok v
  | None => Raise KeyError
  end.

(** The first loop: [serviceidlist], [startdatedict], [enddatedict]. *)
Definition collect_ids (ids : list calendar_row)
  : list string * gmap string string * gmap string string :=
  foldl (λ '(serviceidlist, startdatedict, enddatedict) id,
           (serviceidlist ++ [id.1.1],
            <[id.1.1 := id.1.2]> startdatedict,
            <[id.1.1 := id.2]> enddatedict))
        ([], ∅, ∅) ids.

(** The inner loop, left by [break] once ten pairs are there. *)
Fixpoint scan_eids (startdatedict enddatedict : gmap string string) (sid : string)
    (eids : list string) (nonoverlappingsids : list (string * string))
  : result (list (string * string)) :=
  match eids with
  | [] => Ok nonoverlappingsids
  | eid :: eids' =>
      let* sd := dict_item startdatedict sid in
      let* ed := dict_item enddatedict eid in
      let nonoverlappingsids :=
        if str_gt sd ed then nonoverlappingsids ++ [(sid, eid)] else nonoverlappingsids in
      if (10 <=? length nonoverlappingsids)%nat then Ok nonoverlappingsids
      else scan_eids startdatedict enddatedict sid eids' nonoverlappingsids
  end.

(** The outer loop, with its own [break]. *)
Fixpoint scan_sids (startdatedict enddatedict : gmap string string)
    (serviceidlist sids : list string) (nonoverlappingsids : list (string * string))
  : result (list (string * string)) :=
  match sids with
  | [] => Ok nonoverlappingsids
  | sid :: sids' =>
      let* nonoverlappingsids :=
        scan_eids startdatedict enddatedict sid serviceidlist nonoverlappingsids in
      if (10 <=? length nonoverlappingsids)%nat then Ok nonoverlappingsids
      else scan_sids startdatedict enddatedict serviceidlist sids' nonoverlappingsids
  end.

Definition overlap_intro : string :=
  "Warning! Your calendar.txt file(s) contain(s) non-overlapping date ranges. As a result, your analysis might double count the number of trips available if you are analyzing a generic weekday instead of a specific date.  This is especially likely if the non-overlapping pairs are in the same GTFS dataset.  Please check the date ranges in your calendar.txt file(s). See the User's Guide for further assistance.  Date ranges do not overlap in the following pairs of service_ids: ".

Definition truncation_note : string := "(Showing the first 10 non-overlaps) ".

(** [str(nonoverlappingsids)]: a list of two-element lists. *)
Definition str_pairs (pairs : list (string * string)) : string :=
  str_list (λ p, str_list repr_str [p.1; p.2]) pairs.

Definition make_overlapwarning (nonoverlappingsids : list (string * string)) : string :=
  match nonoverlappingsids with
  | [] => ""
  | _ :: _ =>
      overlap_intro +:+
      (if (length nonoverlappingsids =? 10)%nat then truncation_note else "") +:+
      str_pairs nonoverlappingsids
  end.

(** [calendar] is [None] when the store has no table of that name.  The
    variable [overlapwarning] is bound inside the [if tblnames:] block
    only, and read by the [return] after it. *)
Definition check_nonoverlapping_dateranges (calendar : option (list calendar_row))
  : result string :=
  match calendar with
  | Some ids =>
      let '(serviceidlist, startdatedict, enddatedict) := collect_ids ids in
      let* nonoverlappingsids :=
        scan_sids startdatedict enddatedict serviceidlist serviceidlist [] in
      Ok (make_overlapwarning nonoverlappingsids)
  | None => Raise UnboundLocalError
  end.


(** ** Vocabulary of the statements *)

(** The fields of a row that stand under a column the table declares. *)
Definition declared_fields {A} (tbl : table_spec) (columns : list string)
    (row : list A) : list A :=
  (filter (λ p, dict_has tbl p.1) (zip columns row)).*2.

(** The service ids, one per row of the calendar table. *)
Definition service_ids (ids : list calendar_row) : list string := (λ id, id.1.1) <$> ids.

(** The last row of the calendar table that has the given service id. *)
Definition last_row (ids : list calendar_row) (sid : string) : option calendar_row :=
  last (filter (λ id, id.1.1 = sid) ids).

(** The pairs the two loops go through, in their order. *)
Definition ordered_pairs (serviceidlist : list string) : list (string * string) :=
  flat_map (λ sid, pair sid <$> serviceidlist) serviceidlist.

(** The test of the inner loop, on the two dictionaries. *)
Definition starts_after_end (startdatedict enddatedict : gmap string string)
    (p : string * string) : bool :=
  match startdatedict !! p.1, enddatedict !! p.2 with
  | Some sd, Some ed => str_gt sd ed
  | _, _ => false
  end.

(** The same test on the rows: the dates are those of the last row of
    each service id. *)
Definition last_starts_after_end (ids : list calendar_row) (p : string * string) : bool :=
  match last_row ids p.1, last_row ids p.2 with
  | Some s, Some e => str_gt s.1.2 e.2
  | _, _ => false
  end.

Definition recorded_pairs (ids : list calendar_row) : list (string * string) :=
  take 10 (filter (λ p, last_starts_after_end ids p) (ordered_pairs (service_ids ids))).

(** A calendar table in which service A has ten rows, followed by the
    later services B and C. *)
Definition repeated_calendar : list calendar_row :=
  replicate 10 ("A", "20170101", "20170601")
  ++ [("B", "20180101", "20181231"); ("C", "20190101", "20191231")].

(** A calendar table whose two rows for service A disagree. *)
Definition redated_calendar : list calendar_row :=
  [("A", "20190101", "20191231"); ("A", "20170101", "20170601");
   ("B", "20180101", "20181231")].

(** The digits of the hours: one or two. *)
Definition hour_digits (hours : list string) : Prop :=
  ∃ h1, is_decimal h1 = true
        ∧ (hours = [h1] ∨ ∃ h2, is_decimal h2 = true ∧ hours = [h1; h2]).

(** A string whose characters have the shape [-]?[H]H:MM:SS. *)
Definition hms_shape (s : string) : Prop :=
  ∃ sign hours m1 m2 s1 s2,
    chars s = sign ++ hours ++ [":"; m1; m2; ":"; s1; s2]
    ∧ (sign = [] ∨ sign = ["-"])
    ∧ hour_digits hours
    ∧ is_decimal m1 = true ∧ is_decimal m2 = true
    ∧ is_decimal s1 = true ∧ is_decimal s2 = true.

(** What a time field becomes, [None] when the row is refused. *)
Definition converted_time (field : string) : option value :=
  if check_time_str field then Some (VInt (str2sec field))
  else if String.eqb field "" then None
  else VFloat <$> float field.

(** [lo <= x <= hi] with the bounds written as float literals. *)
Definition in_range (lo : Z) (x : F) (hi : Z) : bool :=
  fle (float_lit lo) x && fle x (float_lit hi).

(** The coordinates of a stop that the check refuses. *)
Definition bad_latlon (stop_lat stop_lon : string) : Prop :=
  float stop_lat = None
  ∨ float stop_lon = None
  ∨ (∃ x, float stop_lat = Some x ∧ in_range (-90) x 90 = false)
  ∨ (∃ y, float stop_lon = Some y ∧ in_range (-180) y 180 = false).

(** The files a dataset cannot do without, and the message entry that
    stands for the two calendar files. *)
Definition required_files : list string :=
  ["stops.txt"; "stop_times.txt"; "trips.txt"; "routes.txt"].

Definition calendar_requirement : string := "calendar.txt or calendar_dates.txt".

(** Whether the dataset directory has the file of that name. *)
Definition present (fs : file_system) (gtfs_dir fname : string) : bool :=
  path_exists fs (path_join gtfs_dir fname).

(** The first required column of a table that a header lacks. *)
Definition first_missing_field (tbl : table_spec) (columns : list string) : option string :=
  fst <$> head (filter (λ entry, is_required entry.2.2 && negb (list_has columns entry.1)) tbl).

(** A dataset whose trips.txt has a row of two fields under a header of
    three. *)
Definition short_row_fs : file_system :=
  λ path,
    if String.eqb path "trips.txt"
    then Some [Ok ["route_id"; "service_id"; "trip_id"]; Ok ["r1"; "s1"]]
    else None.

(** The field the namespacer writes in the place of a field of text. *)
Definition label_value (service : string) (v : value) : value :=
  match v with
  | VStr x => VStr (service +:+ ":" +:+ strip x)
  | _ => v
  end.

(** A row of text after the namespacer, for a label that is already
    cleaned: the fields under the identifier columns are labelled. *)
Definition labelled_row (label : string) (columns raw : list string) : list value :=
  zip_with (λ field x, VStr (if is_id_column field then label +:+ ":" +:+ strip x else x))
           columns raw.

(** A dataset whose trips.txt has a column that is not in the registry, a
    blank line and one row. *)
Definition trips_fs : file_system :=
  λ path,
    if String.eqb path "cta/trips.txt"
    then Some [Ok [" route_id"; "service_id"; "trip_id"; "wheelchair"]; Ok [];
               Ok ["R1"; " wk"; "T9"; "1"]]
    else None.

(** A dataset that has its seven files, with a stops.txt whose header is
    the column stop_code alone. *)
Definition stops_without_id_fs : file_system :=
  λ path,
    if String.eqb path "cta/stops.txt" then Some [Ok ["stop_code"]]
    else if list_has ["cta/calendar.txt"; "cta/calendar_dates.txt"; "cta/stop_times.txt";
                      "cta/trips.txt"; "cta/routes.txt"; "cta/frequencies.txt"] path
    then Some []
    else None.

(** A dataset whose stops.txt is not UTF-8 from its first record on. *)
Definition undecodable_stops_fs : file_system :=
  λ path,
    if String.eqb path "cta/stops.txt" then Some [Raise UnicodeDecodeError]
    else if list_has ["cta/calendar.txt"; "cta/stop_times.txt"; "cta/trips.txt";
                      "cta/routes.txt"] path
    then Some []
    else None.

(** ** Properties *)

(** *** Strings *)

Lemma endswith_spec (s suffix : string) :
  endswith s suffix = true ↔ ∃ p, s = p +:+ suffix.
Proof.
  induction s as [|c s IH]; cbn [endswith].
  - rewrite orb_false_r, String.eqb_eq. split.
    + intros <-. by exists "".
    + intros [p Hp]. destruct p; simpl in Hp; [done | discriminate].
  - rewrite orb_true_iff, String.eqb_eq, IH. split.
    + intros [<- | [p ->]]; [by exists "" | by exists (String c p)].
    + intros [p Hp]. destruct p as [|c' p]; simpl in Hp.
      * by left.
      * right. exists p. by injection Hp.
Qed.

Lemma is_id_column_spec (field : string) :
  is_id_column field = true ↔ (∃ p, field = p +:+ "_id") ∧ field ≠ "direction_id".
Proof.
  unfold is_id_column.
  rewrite andb_true_iff, negb_true_iff, endswith_spec, String.eqb_neq. done.
Qed.

Lemma sub_non_alnum_alnum (s : string) :
  Forall (λ c, is_alnum c = true) (list_ascii_of_string (sub_non_alnum s)).
Proof.
  induction s as [|c s IH]; simpl; [constructor|].
  destruct (is_alnum c) eqn:Hc; simpl; [by constructor | done].
Qed.

Lemma sub_non_alnum_idemp (s : string) :
  sub_non_alnum (sub_non_alnum s) = sub_non_alnum s.
Proof.
  induction s as [|c s IH]; simpl; [done|].
  destruct (is_alnum c) eqn:Hc; simpl; [by rewrite Hc, IH | done].
Qed.

Lemma append_assoc (a b c : string) : (a +:+ b) +:+ c = a +:+ b +:+ c.
Proof. induction a as [|x a IH]; [done|]. cbv [String.append]. by f_equal. Qed.

Lemma length_append (a b : string) :
  String.length (a +:+ b) = String.length a + String.length b.
Proof.
  induction a as [|x a IH]; [done|].
  change (String x a +:+ b) with (String x (a +:+ b)). cbn [String.length]. by rewrite IH.
Qed.

Lemma startswith_spec (s w : string) : startswith s w = true ↔ ∃ t, s = w +:+ t.
Proof.
  revert s. induction w as [|c w IH]; intros s.
  - split; [intros _; by exists s | done].
  - destruct s as [|d s]; cbn [startswith].
    + split; [done | by intros [t ?]].
    + rewrite andb_true_iff, Ascii.eqb_eq, IH. split.
      * intros [-> [t ->]]. by exists t.
      * intros [t [= -> ->]]. split; [done | by exists t].
Qed.

Lemma leading_space_Some (s w : string) :
  leading_space s = Some w → w ∈ spaces ∧ ∃ t, s = w +:+ t.
Proof.
  intros [Hin Hp]%find_some. split; [by apply list_elem_of_In | by apply startswith_spec].
Qed.

Lemma leading_space_append (w t : string) :
  w ∈ spaces → leading_space (w +:+ t) = Some w.
Proof.
  intros Hw. unfold spaces in Hw.
  repeat (apply elem_of_cons in Hw as [-> | Hw]); try reflexivity.
  by apply elem_of_nil in Hw.
Qed.

Lemma length_space (w : string) : w ∈ spaces → 0 < String.length w.
Proof.
  intros Hw. unfold spaces in Hw.
  repeat (apply elem_of_cons in Hw as [-> | Hw]); try (vm_compute; lia).
  by apply elem_of_nil in Hw.
Qed.

(** Whitespace in front of a string is dropped whatever follows it. *)
Lemma lstrip_from_append (u : string) :
  ∀ skip t, lstrip_from skip u = "" → skip ≤ String.length u →
            lstrip_from skip (u +:+ t) = lstrip t.
Proof.
  induction u as [|b u IH]; intros skip t Hu Hskip.
  - cbn [String.length] in Hskip. by replace skip with 0 by lia.
  - cbn [String.length] in Hskip. destruct skip as [|skip].
    + cbn [lstrip_from] in Hu.
      destruct (leading_space (String b u)) as [w|] eqn:Hw; [|done].
      apply leading_space_Some in Hw as [Hin [t0 Ht0]].
      change (String b u +:+ t) with (String b (u +:+ t)). cbn [lstrip_from].
      change (String b (u +:+ t)) with (String b u +:+ t).
      rewrite Ht0, append_assoc, (leading_space_append w _ Hin).
      apply IH; [done|].
      apply (f_equal String.length) in Ht0. rewrite length_append in Ht0.
      cbn [String.length] in Ht0. pose proof (length_space w Hin). lia.
    + cbn [lstrip_from] in Hu. change (String b u +:+ t) with (String b (u +:+ t)).
      cbn [lstrip_from]. apply IH; [done | lia].
Qed.

Lemma lstrip_append (u t : string) : lstrip u = "" → lstrip (u +:+ t) = lstrip t.
Proof. intros Hu. apply lstrip_from_append; [done | lia]. Qed.

(** What [rstrip] drops is whitespace. *)
Lemma rstrip_dropped (s : string) : ∃ w, s = rstrip s +:+ w ∧ lstrip w = "".
Proof.
  induction s as [|c s (w & Hw & Hs)]; [by exists ""|]. cbn [rstrip].
  destruct (String.eqb (lstrip (String c s)) "") eqn:Hall.
  - apply String.eqb_eq in Hall. by exists (String c s).
  - exists w. split; [|done]. change (String c (rstrip s) +:+ w) with (String c (rstrip s +:+ w)).
    by rewrite <- Hw.
Qed.

(** What [rstrip] keeps does not end with whitespace. *)
Lemma rstrip_kept (s : string) :
  ∀ p t, rstrip s = p +:+ t → t ≠ "" → lstrip t ≠ "".
Proof.
  induction s as [|c s IH]; intros p t Hs Ht.
  - destruct p, t; done.
  - cbn [rstrip] in Hs.
    destruct (String.eqb (lstrip (String c s)) "") eqn:Hall; [destruct p, t; done|].
    apply String.eqb_neq in Hall. destruct p as [|d p].
    + change ("" +:+ t) with t in Hs. subst t. intros Hw. apply Hall.
      destruct (rstrip_dropped s) as (w & Hs & Hws).
      rewrite Hs at 1. change (String c (rstrip s +:+ w)) with (String c (rstrip s) +:+ w).
      by rewrite (lstrip_append _ w Hw).
    + change (String d p +:+ t) with (String d (p +:+ t)) in Hs.
      injection Hs as _ Hs. by eapply IH.
Qed.

Lemma rstrip_fixed (s : string) :
  (∀ p t, s = p +:+ t → t ≠ "" → lstrip t ≠ "") → rstrip s = s.
Proof.
  induction s as [|c s IH]; intros Hs; [done|]. cbn [rstrip].
  destruct (String.eqb (lstrip (String c s)) "") eqn:Hall.
  - apply String.eqb_eq in Hall. by destruct (Hs "" (String c s)).
  - f_equal. apply IH. intros p t -> Ht. by apply (Hs (String c p) t).
Qed.

Lemma strip_no_newline (x s' : string) : strip x ≠ s' +:+ nl.
Proof. intros H. by apply rstrip_kept in H. Qed.

(** *** The namespacer *)

Lemma labelled_columns_from (columns : list string) (k : nat) (s0 : gset nat) (idx : nat) :
  idx ∈ foldl (λ (s : gset nat) p, if is_id_column p.2 then {[p.1]} ∪ s else s)
             s0 (zip (seq k (length columns)) columns)
  ↔ idx ∈ s0 ∨ (k ≤ idx ∧ ∃ field, columns !! (idx - k) = Some field
                                 ∧ is_id_column field = true).
Proof.
  revert k s0. induction columns as [|c columns IH]; intros k s0; simpl.
  - split; [by left | intros [?|(_ & ? & ? & _)]; done].
  - rewrite IH. split.
    + intros [Hin | (Hk & field & Hf & Hid)].
      * destruct (is_id_column c) eqn:Hc; [|by left].
        apply elem_of_union in Hin as [->%elem_of_singleton | Hin]; [|by left].
        right. split; [lia|]. exists c. by rewrite Nat.sub_diag.
      * right. split; [lia|]. exists field.
        replace (idx - k) with (S (idx - S k)) by lia. done.
    + intros [Hin | (Hk & field & Hf & Hid)].
      * left. destruct (is_id_column c); [apply elem_of_union; by right | done].
      * destruct (decide (idx = k)) as [->|Hne].
        -- rewrite Nat.sub_diag in Hf. simpl in Hf. simplify_eq.
           left. rewrite Hid. apply elem_of_union. left. by apply elem_of_singleton.
        -- right. split; [lia|]. exists field.
           replace (idx - k) with (S (idx - S k)) in Hf by lia. done.
Qed.

Lemma labelled_columns_spec (columns : list string) (idx : nat) :
  idx ∈ labelled_columns columns
  ↔ ∃ field, columns !! idx = Some field ∧ is_id_column field = true.
Proof.
  unfold labelled_columns, enumerate. rewrite labelled_columns_from.
  rewrite Nat.sub_0_r. split.
  - intros [?|[_ ?]]; [set_solver | done].
  - intros ?. right. split; [lia | done].
Qed.

Lemma add_labels_loop (service : string) (raw : list string) (idxs : list nat) :
  ∀ ret : list value,
    length ret = length raw →
    Forall (λ idx, idx < length raw) idxs →
    ∃ out,
      for_each idxs
        (λ ret idx,
           let* field := getitem (VStr <$> raw) idx in
           let* stripped := value_strip field in
           Ok (<[idx := VStr (service +:+ ":" +:+ stripped)]> ret))
        ret = Ok out
      ∧ length out = length raw
      ∧ ∀ i, out !! i =
             if decide (i ∈ idxs)
             then (λ x, VStr (service +:+ ":" +:+ strip x)) <$> raw !! i
             else ret !! i.
Proof.
  induction idxs as [|idx idxs IH]; intros ret Hlen Hall; simpl.
  - exists ret. split_and!; [done..|]. intros i.
    destruct (decide (i ∈ [])) as [Hin|]; [by apply elem_of_nil in Hin | done].
  - apply Forall_cons in Hall as [Hidx Hall].
    destruct (lookup_lt_is_Some_2 raw idx Hidx) as [x Hx].
    unfold getitem at 1. rewrite list_lookup_fmap, Hx. simpl.
    destruct (IH (<[idx := VStr (service +:+ ":" +:+ strip x)]> ret)) as (out & Hout & Hl & Hget);
      [by rewrite length_insert | done |].
    exists out. split_and!; [done..|]. intros i. rewrite Hget.
    destruct (decide (i = idx)) as [->|Hne].
    + rewrite (decide_True (P := idx ∈ idx :: idxs)) by apply list_elem_of_here.
      destruct (decide (idx ∈ idxs)); [done|].
      rewrite list_lookup_insert_eq by lia. by rewrite Hx.
    + destruct (decide (i ∈ idxs)) as [Hin|Hnin].
      * rewrite (decide_True (P := i ∈ idx :: idxs)) by (by apply list_elem_of_further).
        done.
      * rewrite (decide_False (P := i ∈ idx :: idxs)).
        -- by rewrite list_lookup_insert_ne.
        -- intros [?|?]%elem_of_cons; done.
Qed.

(** C1.  The function built for a label and a header rewrites, in a row of
    text as long as the header, exactly the fields of the columns whose
    name ends in [_id] and is not [direction_id]: such a field becomes the
    label with every character outside [A-Za-z0-9] removed, a colon, and
    the field without its surrounding whitespace; the other fields stay.
    The function is the closure over the cleaned label, which is computed
    when it is built. *)
Theorem make_add_agency_labels_spec (service : string) (columns raw : list string) :
  length raw = length columns →
  ∃ out,
    make_add_agency_labels service columns (VStr <$> raw) = Ok out
    ∧ length out = length raw
    ∧ (∀ i field x,
         columns !! i = Some field → raw !! i = Some x →
         (∃ p, field = p +:+ "_id") → field ≠ "direction_id" →
         out !! i = Some (VStr (sub_non_alnum service +:+ ":" +:+ strip x)))
    ∧ (∀ i field x,
         columns !! i = Some field → raw !! i = Some x →
         ¬ ((∃ p, field = p +:+ "_id") ∧ field ≠ "direction_id") →
         out !! i = Some (VStr x))
    ∧ make_add_agency_labels service columns
      = add_labels (sub_non_alnum service) (labelled_columns columns).
Proof.
  intros Hlen. unfold make_add_agency_labels, add_labels.
  destruct (add_labels_loop (sub_non_alnum service) raw
              (elements (labelled_columns columns)) (VStr <$> raw))
    as (out & Hout & Hl & Hget).
  { by rewrite length_fmap. }
  { apply Forall_forall. intros idx Hin.
    apply elem_of_elements, labelled_columns_spec in Hin as (field & Hf & _).
    apply lookup_lt_Some in Hf. lia. }
  exists out. split_and!; [done..| | |done].
  - intros i field x Hc Hx Hsuf Hne. rewrite Hget, decide_True, Hx; [done|].
    apply elem_of_elements, labelled_columns_spec. exists field.
    split; [done|]. by apply is_id_column_spec.
  - intros i field x Hc Hx Hnot. rewrite Hget, decide_False.
    + by rewrite list_lookup_fmap, Hx.
    + intros Hin. apply elem_of_elements, labelled_columns_spec in Hin as (f & Hf & Hid).
      simplify_eq. by apply Hnot, is_id_column_spec.
Qed.

(** *** The column projector *)

Lemma enumerate_snoc {A} (l : list A) (x : A) :
  enumerate (l ++ [x]) = enumerate l ++ [(length l, x)].
Proof.
  unfold enumerate. rewrite length_app, seq_app.
  rewrite zip_with_app by (by rewrite length_seq). done.
Qed.

Lemma extraneous_columns_snoc (tbl : table_spec) (columns : list string) (c : string) :
  extraneous_columns tbl (columns ++ [c])
  = (if dict_has tbl c then [] else [length columns]) ++ extraneous_columns tbl columns.
Proof.
  unfold extraneous_columns. rewrite enumerate_snoc, foldl_app. simpl.
  destruct (dict_has tbl c); simpl; [done|].
  by rewrite reverse_snoc.
Qed.

Lemma pop_app {A} (r r' t : list A) (idx : nat) :
  pop r idx = Ok r' → pop (r ++ t) idx = Ok (r' ++ t).
Proof.
  unfold pop. destruct (r !! idx) as [x|] eqn:Hx; [|done].
  intros [= <-]. rewrite (lookup_app_l_Some _ _ _ _ Hx).
  f_equal. apply lookup_lt_Some in Hx.
  revert idx Hx. induction r as [|y r IH]; intros [|idx] Hx; simpl in *; try lia; [done|].
  f_equal. apply IH. lia.
Qed.

Lemma for_each_pop_app {A} (idxs : list nat) (t : list A) :
  ∀ r out, for_each idxs pop r = Ok out → for_each idxs pop (r ++ t) = Ok (out ++ t).
Proof.
  induction idxs as [|idx idxs IH]; intros r out; simpl.
  - by intros [= ->].
  - destruct (pop r idx) as [r'|e] eqn:Hpop; simpl; [|done].
    intros Hout. rewrite (pop_app _ _ _ _ Hpop). simpl. by apply IH.
Qed.

Lemma pop_last {A} (r : list A) (x : A) : pop (r ++ [x]) (length r) = Ok r.
Proof.
  unfold pop. rewrite list_lookup_middle by done. f_equal.
  induction r as [|y r IH]; simpl; [done | by f_equal].
Qed.

Lemma declared_fields_snoc {A} (tbl : table_spec) (columns : list string) (c : string)
    (row : list A) (x : A) :
  length row = length columns →
  declared_fields tbl (columns ++ [c]) (row ++ [x])
  = declared_fields tbl columns row ++ (if dict_has tbl c then [x] else []).
Proof.
  intros Hlen. unfold declared_fields.
  rewrite zip_with_app by done. rewrite filter_app, fmap_app. f_equal.
  simpl. rewrite filter_cons. simpl.
  destruct (decide (dict_has tbl c)) as [H|H].
  - by apply Is_true_true in H as ->.
  - by apply Is_true_false in H as ->.
Qed.

Lemma for_each_pop_extraneous {A} (tbl : table_spec) (columns : list string) :
  ∀ row : list A,
    length row = length columns →
    for_each (extraneous_columns tbl columns) pop row
    = Ok (declared_fields tbl columns row).
Proof.
  induction columns as [|c columns IH] using rev_ind; intros row Hlen.
  - by destruct row.
  - rewrite length_app in Hlen. simpl in Hlen.
    destruct row as [|x row _] using rev_ind; [simpl in Hlen; lia|].
    rewrite length_app in Hlen. simpl in Hlen.
    assert (length row = length columns) as Hlen' by lia.
    rewrite extraneous_columns_snoc, declared_fields_snoc by done.
    destruct (dict_has tbl c); simpl.
    + apply for_each_pop_app. by apply IH.
    + rewrite <- Hlen', pop_last. simpl. rewrite app_nil_r. by apply IH.
Qed.

Lemma length_declared_fields {A} (tbl : table_spec) (columns : list string) (row : list A) :
  length row = length columns →
  length (declared_fields tbl columns row)
  = length (filter (λ c, dict_has tbl c) columns).
Proof.
  revert row. induction columns as [|c columns IH]; intros [|x row] Hlen;
    simpl in *; try lia.
  unfold declared_fields in *. simpl. rewrite !filter_cons. simpl.
  destruct (decide (dict_has tbl c)); simpl; rewrite IH by lia; done.
Qed.

Lemma dict_has_elem_of {V} (d : list (string * V)) (key : string) :
  dict_has d key ↔ key ∈ d.*1.
Proof.
  unfold dict_has. induction d as [|[k v] d IH]; simpl.
  - by rewrite elem_of_nil.
  - rewrite elem_of_cons, orb_True, IH.
    rewrite Is_true_true, String.eqb_eq.
    split; (intros [->|?]; [by left | by right]).
Qed.

Lemma dict_get_elem_of {V} (d : list (string * V)) (key : string) (v : V) :
  dict_get d key = Ok v → (key, v) ∈ d.
Proof.
  induction d as [|[k v'] d IH]; simpl; [done|].
  destruct (String.eqb k key) eqn:Hk.
  - apply String.eqb_eq in Hk as ->. intros [= ->]. by left.
  - intros ?. right. by apply IH.
Qed.

(** No table of the registry names a column twice. *)
Lemma sql_schema_NoDup (tablename : string) (tbl : table_spec) :
  dict_get sql_schema tablename = Ok tbl → NoDup tbl.*1.
Proof.
  intros Hget%dict_get_elem_of.
  assert (Forall (λ entry : string * table_spec,
                    bool_decide (NoDup entry.2.*1) = true) sql_schema) as Hall.
  { repeat constructor. }
  rewrite Forall_forall in Hall. apply Hall in Hget. simpl in Hget.
  by apply bool_decide_eq_true in Hget.
Qed.

(** C2 (amended).  On a row that has the length of the header, the
    projector returns the fields under the columns the registry declares
    for the table: as many fields as the header has declared columns,
    whatever the number of the other columns.  This is the number of
    columns the registry declares when the header names each one of them,
    once. *)
Theorem drop_fields_count {A} (str_row : list A → string) (tablename : string)
    (tbl : table_spec) (columns : list string) (in_row : list A) :
  dict_get sql_schema tablename = Ok tbl →
  length in_row = length columns →
  ∃ env out,
    make_remove_extra_fields tablename columns = Ok env
    ∧ drop_fields env str_row in_row = Ok out
    ∧ out = declared_fields tbl columns in_row
    ∧ length out = length (filter (λ c, dict_has tbl c) columns)
    ∧ (NoDup columns → (∀ c, c ∈ tbl.*1 → c ∈ columns) → length out = length tbl).
Proof.
  intros Htbl Hlen. unfold make_remove_extra_fields. rewrite Htbl. simpl.
  eexists _, (declared_fields tbl columns in_row). split; [done|].
  unfold drop_fields. simpl. rewrite Hlen, Nat.eqb_refl. simpl.
  split; [by apply for_each_pop_extraneous|]. split; [done|].
  split; [by apply length_declared_fields|].
  intros Hnd Hsub. rewrite length_declared_fields by done.
  rewrite <- (length_fmap fst tbl). apply Permutation_length.
  apply NoDup_Permutation.
  - by apply NoDup_filter.
  - by eapply sql_schema_NoDup.
  - intros c. rewrite list_elem_of_filter, dict_has_elem_of.
    split; [by intros [? _] | auto].
Qed.

(** *** The consistency checker *)

Lemma collect_ids_snoc (ids : list calendar_row) (id : calendar_row) :
  collect_ids (ids ++ [id])
  = ((collect_ids ids).1.1 ++ [id.1.1],
     <[id.1.1 := id.1.2]> (collect_ids ids).1.2,
     <[id.1.1 := id.2]> (collect_ids ids).2).
Proof.
  unfold collect_ids. rewrite foldl_app. simpl.
  by destruct (foldl _ _ ids) as [[? ?] ?].
Qed.

Lemma last_row_snoc (ids : list calendar_row) (id : calendar_row) (sid : string) :
  last_row (ids ++ [id]) sid = if decide (id.1.1 = sid) then Some id else last_row ids sid.
Proof.
  unfold last_row. rewrite filter_app, filter_cons, filter_nil.
  destruct (decide (id.1.1 = sid)); [by rewrite last_snoc | by rewrite app_nil_r].
Qed.

Lemma collect_ids_spec (ids : list calendar_row) :
  (collect_ids ids).1.1 = service_ids ids
  ∧ (∀ sid, (collect_ids ids).1.2 !! sid = (λ id, id.1.2) <$> last_row ids sid)
  ∧ (∀ sid, (collect_ids ids).2 !! sid = (λ id, id.2) <$> last_row ids sid).
Proof.
  induction ids as [|id ids (IH1 & IH2 & IH3)] using rev_ind.
  - split_and!; [done | intros sid; apply lookup_empty..].
  - rewrite collect_ids_snoc. simpl. split_and!.
    + rewrite IH1. unfold service_ids. by rewrite fmap_app.
    + intros sid. rewrite last_row_snoc, lookup_insert.
      destruct (decide (id.1.1 = sid)); [done | apply IH2].
    + intros sid. rewrite last_row_snoc, lookup_insert.
      destruct (decide (id.1.1 = sid)); [done | apply IH3].
Qed.

Lemma last_row_is_Some (ids : list calendar_row) (sid : string) :
  sid ∈ service_ids ids → is_Some (last_row ids sid).
Proof.
  unfold service_ids. intros (id & -> & Hin)%list_elem_of_fmap.
  unfold last_row. destruct (last _) eqn:Hlast; [done|].
  apply last_None in Hlast.
  assert (id ∈ @nil calendar_row) as Hf; [|by apply elem_of_nil in Hf].
  rewrite <- Hlast. by apply list_elem_of_filter.
Qed.

Lemma starts_after_end_last (ids : list calendar_row) (p : string * string) :
  starts_after_end (collect_ids ids).1.2 (collect_ids ids).2 p = last_starts_after_end ids p.
Proof.
  destruct (collect_ids_spec ids) as (_ & Hs & He).
  unfold starts_after_end, last_starts_after_end. rewrite Hs, He.
  by destruct (last_row ids p.1), (last_row ids p.2).
Qed.

Lemma scan_eids_spec (sd ed : gmap string string) (sid : string) (eids : list string) :
  is_Some (sd !! sid) →
  Forall (λ eid, is_Some (ed !! eid)) eids →
  ∀ acc,
    length acc < 10 →
    scan_eids sd ed sid eids acc
    = Ok (take 10 (acc ++ filter (λ p, starts_after_end sd ed p) (pair sid <$> eids))).
Proof.
  intros [a Ha] Hall. induction Hall as [|eid eids [b Hb] _ IH]; intros acc Hacc.
  - simpl. rewrite app_nil_r, take_ge by lia. done.
  - cbn [scan_eids]. unfold dict_item. rewrite Ha, Hb. cbn [bind].
    assert (starts_after_end sd ed (sid, eid) = str_gt a b) as Htest
      by (unfold starts_after_end; simpl; by rewrite Ha, Hb).
    rewrite fmap_cons. destruct (str_gt a b).
    + rewrite filter_cons_True by (by apply Is_true_true).
      destruct (10 <=? length (acc ++ [(sid, eid)])) eqn:Hfull.
      * apply Nat.leb_le in Hfull. rewrite length_app in Hfull. simpl in Hfull.
        generalize (filter (λ p, starts_after_end sd ed p) (pair sid <$> eids)).
        intros r. rewrite (cons_middle (sid, eid) acc r), app_assoc.
        rewrite take_app_le by (rewrite length_app; simpl; lia).
        rewrite take_ge by (rewrite length_app; simpl; lia). done.
      * apply Nat.leb_gt in Hfull. rewrite (IH _ Hfull).
        generalize (filter (λ p, starts_after_end sd ed p) (pair sid <$> eids)).
        intros r. by rewrite <- app_assoc.
    + rewrite filter_cons_False by (by apply Is_true_false).
      destruct (10 <=? length acc) eqn:Hfull.
      * apply Nat.leb_le in Hfull. lia.
      * by apply IH.
Qed.

Lemma scan_sids_spec (sd ed : gmap string string) (serviceidlist sids : list string) :
  Forall (λ eid, is_Some (ed !! eid)) serviceidlist →
  Forall (λ sid, is_Some (sd !! sid)) sids →
  ∀ acc,
    length acc < 10 →
    scan_sids sd ed serviceidlist sids acc
    = Ok (take 10 (acc ++ filter (λ p, starts_after_end sd ed p)
                                 (flat_map (λ sid, pair sid <$> serviceidlist) sids))).
Proof.
  intros Hed Hsd. induction Hsd as [|sid sids Hsid _ IH]; intros acc Hacc.
  - simpl. rewrite app_nil_r, take_ge by lia. done.
  - cbn [scan_sids flat_map]. rewrite scan_eids_spec by done. cbn [bind].
    rewrite filter_app, app_assoc.
    set (here := acc ++ filter _ (pair sid <$> serviceidlist)).
    destruct (10 <=? length (take 10 here)) eqn:Hfull.
    + apply Nat.leb_le in Hfull. rewrite length_take in Hfull.
      rewrite take_app_le by lia. done.
    + apply Nat.leb_gt in Hfull. rewrite length_take in Hfull.
      rewrite (take_ge here) by lia. apply IH. lia.
Qed.

Lemma check_nonoverlapping_dateranges_Some (ids : list calendar_row) :
  check_nonoverlapping_dateranges (Some ids) = Ok (make_overlapwarning (recorded_pairs ids)).
Proof.
  unfold check_nonoverlapping_dateranges.
  destruct (collect_ids_spec ids) as (Hl & Hs & He).
  pose proof (starts_after_end_last ids) as Htest.
  destruct (collect_ids ids) as [[serviceidlist startdatedict] enddatedict].
  simpl in *. subst serviceidlist.
  rewrite scan_sids_spec; [| | |simpl; lia].
  - simpl. unfold recorded_pairs, ordered_pairs. do 3 f_equal.
    apply list_filter_iff. intros p. by rewrite Htest.
  - apply Forall_forall. intros eid Hin. rewrite He.
    by apply fmap_is_Some, last_row_is_Some.
  - apply Forall_forall. intros sid Hin. rewrite Hs.
    by apply fmap_is_Some, last_row_is_Some.
Qed.


Lemma last_row_NoDup (ids : list calendar_row) (id : calendar_row) :
  NoDup (service_ids ids) → id ∈ ids → last_row ids id.1.1 = Some id.
Proof.
  induction ids as [|id' ids IH] using rev_ind; intros Hnd Hin.
  - by apply elem_of_nil in Hin.
  - unfold service_ids in Hnd. rewrite fmap_app in Hnd. simpl in Hnd.
    apply NoDup_app in Hnd as (Hnd & Hfresh & _).
    rewrite last_row_snoc.
    apply elem_of_app in Hin as [Hin | ->%list_elem_of_singleton].
    + destruct (decide (id'.1.1 = id.1.1)) as [Heq|_]; [|by apply IH].
      exfalso. apply (Hfresh id.1.1).
      * by apply (list_elem_of_fmap_2 (λ id0 : calendar_row, id0.1.1)).
      * rewrite <- Heq. by apply list_elem_of_singleton.
    + by rewrite decide_True.
Qed.


(** C3.  Without a table [calendar] the checker does not return: the
    variable it returns was never bound.  With the table it returns a
    string. *)
Theorem check_nonoverlapping_dateranges_no_calendar :
  check_nonoverlapping_dateranges None = Raise UnboundLocalError
  ∧ ∀ ids, ∃ overlapwarning,
      check_nonoverlapping_dateranges (Some ids) = Ok overlapwarning.
Proof.
  split; [done|]. intros ids. eexists. apply check_nonoverlapping_dateranges_Some.
Qed.

(** C10.  The list of service ids has one entry per row of the calendar
    table, while the two dictionaries hold, for a service id, the dates of
    its last row; the recorded pairs are found with these dates.  A pair
    of service ids is recorded once per pair of rows: in
    [repeated_calendar] the pair (B, A) fills the ten places and the pairs
    of C are not reported; in [redated_calendar] the first row of A, which
    starts after B ends, plays no part. *)
Theorem check_nonoverlapping_dateranges_duplicates (ids : list calendar_row) :
  (collect_ids ids).1.1 = (λ id, id.1.1) <$> ids
  ∧ (∀ sid, (collect_ids ids).1.2 !! sid = (λ id, id.1.2) <$> last_row ids sid)
  ∧ (∀ sid, (collect_ids ids).2 !! sid = (λ id, id.2) <$> last_row ids sid)
  ∧ check_nonoverlapping_dateranges (Some ids)
    = Ok (make_overlapwarning
            (take 10 (filter (λ p, last_starts_after_end ids p)
                             (ordered_pairs ((λ id, id.1.1) <$> ids)))))
  ∧ check_nonoverlapping_dateranges (Some repeated_calendar)
    = Ok (make_overlapwarning (replicate 10 ("B", "A")))
  ∧ check_nonoverlapping_dateranges (Some redated_calendar)
    = Ok (make_overlapwarning [("B", "A"); ("B", "A")]).
Proof.
  destruct (collect_ids_spec ids) as (Hl & Hs & He).
  split_and!; [done.. | apply check_nonoverlapping_dateranges_Some | |];
    vm_compute; reflexivity.
Qed.

(** *** The pattern of [check_time_str] *)

Lemma concat_chars (s : string) : String.concat "" (chars s) = s.
Proof.
  induction s as [|b s IH]; [done|]. cbn [chars].
  destruct (chars s) as [|c cs] eqn:Hs.
  - by destruct s.
  - rewrite <- IH. destruct (continues c); destruct cs; done.
Qed.

Lemma chars_nil (s : string) : chars s = [] → s = "".
Proof.
  destruct s as [|b s]; [done|]. cbn [chars].
  destruct (chars s) as [|c cs]; [done|]. by destruct (continues c).
Qed.

Lemma chars_append_newline (s : string) : chars (s +:+ nl) = chars s ++ [nl].
Proof.
  induction s as [|b s IH]; [done|].
  change (String b s +:+ nl) with (String b (s +:+ nl)). cbn [chars]. rewrite IH.
  destruct (chars s) as [|c cs] eqn:Hs.
  - apply chars_nil in Hs as ->. done.
  - cbn [app]. by destruct (continues c).
Qed.

Lemma concat_snoc (cs : list string) (c : string) :
  String.concat "" (cs ++ [c]) = String.concat "" cs +:+ c.
Proof.
  induction cs as [|d cs IH]; [done|]. cbn [app].
  destruct cs as [|e cs].
  - done.
  - change (String.concat "" (d :: (e :: cs) ++ [c]))
      with (d +:+ String.concat "" ((e :: cs) ++ [c])).
    rewrite IH. change (String.concat "" (d :: e :: cs)) with (d +:+ String.concat "" (e :: cs)).
    by rewrite append_assoc.
Qed.

(** The last character is a newline when the last byte is. *)
Lemma chars_newline (s : string) (cs : list string) :
  chars s = cs ++ [nl] ↔ ∃ s', s = s' +:+ nl ∧ chars s' = cs.
Proof.
  split.
  - intros Hs. exists (String.concat "" cs).
    assert (s = String.concat "" cs +:+ nl) as Heq.
    { by rewrite <- (concat_chars s), Hs, concat_snoc. }
    split; [done|]. rewrite Heq, chars_append_newline in Hs.
    by apply app_inj_tail in Hs as [? _].
  - intros (s' & -> & <-). apply chars_append_newline.
Qed.

Lemma at_end_spec (rest : list string) : at_end rest = true ↔ rest = [] ∨ rest = [nl].
Proof.
  destruct rest as [|c [|d rest]]; cbn [at_end].
  - split; [by left | done].
  - rewrite String.eqb_eq. split; [intros ->; by right | by intros [|[= ->]]].
  - split; [done | by intros [|]].
Qed.

Lemma match_minutes_seconds_spec (cs : list string) :
  match_minutes_seconds cs = true
  ↔ ∃ m1 m2 s1 s2 rest,
      cs = ":" :: m1 :: m2 :: ":" :: s1 :: s2 :: rest
      ∧ is_decimal m1 = true ∧ is_decimal m2 = true
      ∧ is_decimal s1 = true ∧ is_decimal s2 = true
      ∧ at_end rest = true.
Proof.
  split.
  - destruct cs as [|c1 [|m1 [|m2 [|c2 [|s1 [|s2 rest]]]]]]; try done.
    unfold match_minutes_seconds. rewrite !andb_true_iff, !String.eqb_eq.
    intros ((((((-> & ?) & ?) & ->) & ?) & ?) & ?). by exists m1, m2, s1, s2, rest.
  - intros (m1 & m2 & s1 & s2 & rest & -> & H1 & H2 & H3 & H4 & H5).
    unfold match_minutes_seconds. by rewrite H1, H2, H3, H4, H5.
Qed.

Lemma match_hours_spec (cs : list string) :
  match_hours cs = true
  ↔ ∃ h1 rest, is_decimal h1 = true
      ∧ ((cs = h1 :: rest ∧ match_minutes_seconds rest = true)
         ∨ ∃ h2, is_decimal h2 = true ∧ cs = h1 :: h2 :: rest
                 ∧ match_minutes_seconds rest = true).
Proof.
  split.
  - destruct cs as [|h1 [|h2 rest]]; try done.
    unfold match_hours. rewrite orb_true_iff, !andb_true_iff.
    intros [[[? ?] ?] | [? ?]].
    + exists h1, rest. split; [done|]. right. by exists h2.
    + exists h1, (h2 :: rest). split; [done|]. by left.
  - intros (h1 & rest & Hh1 & [[-> Hm] | (h2 & Hh2 & -> & Hm)]).
    + destruct rest as [|c rest]; [done|].
      unfold match_hours. rewrite Hh1, Hm. simpl. apply orb_true_r.
    + unfold match_hours. by rewrite Hh1, Hh2, Hm.
Qed.

Lemma match_time_sign (cs : list string) :
  match_time cs = true
  ↔ match_hours cs = true ∨ ∃ rest, cs = "-" :: rest ∧ match_hours rest = true.
Proof.
  destruct cs as [|c rest]; cbn [match_time].
  - split; [done | intros [? | (? & ? & _)]; done].
  - destruct (String.eqb c "-") eqn:Hc.
    + apply String.eqb_eq in Hc as ->. rewrite orb_true_iff. split.
      * intros [?|?]; [right; by exists rest | by left].
      * intros [?|(? & [= <-] & ?)]; [by right | by left].
    + split; [by left|]. intros [?|(? & [= -> <-] & ?)]; [done|].
      by rewrite String.eqb_refl in Hc.
Qed.

(** The strings [check_time_str] accepts: those of the shape, and those
    of the shape followed by one newline. *)
Lemma check_time_str_spec (s : string) :
  check_time_str s = true ↔ hms_shape s ∨ ∃ s', s = s' +:+ nl ∧ hms_shape s'.
Proof.
  unfold check_time_str. rewrite match_time_sign.
  assert (∀ cs, match_hours cs = true
            ↔ ∃ hours m1 m2 s1 s2 rest,
                cs = hours ++ ":" :: m1 :: m2 :: ":" :: s1 :: s2 :: rest
                ∧ hour_digits hours
                ∧ is_decimal m1 = true ∧ is_decimal m2 = true
                ∧ is_decimal s1 = true ∧ is_decimal s2 = true
                ∧ (rest = [] ∨ rest = [nl])) as Hhours.
  { intros cs. rewrite match_hours_spec. split.
    - intros (h1 & rest & Hh1 & Hcase).
      destruct Hcase as [[-> Hm] | (h2 & Hh2 & -> & Hm)];
        apply match_minutes_seconds_spec in Hm
          as (m1 & m2 & s1 & s2 & rest' & -> & ? & ? & ? & ? & Hend%at_end_spec).
      + exists [h1], m1, m2, s1, s2, rest'.
        split_and!; try done. exists h1. split; [done | by left].
      + exists [h1; h2], m1, m2, s1, s2, rest'.
        split_and!; try done. exists h1. split; [done|]. right. by exists h2.
    - intros (hours & m1 & m2 & s1 & s2 & rest & -> & (h1 & Hh1 & Hhours) & ? & ? & ? & ? & Hrest).
      assert (match_minutes_seconds (":" :: m1 :: m2 :: ":" :: s1 :: s2 :: rest) = true)
        as Hms.
      { apply match_minutes_seconds_spec. exists m1, m2, s1, s2, rest.
        split_and!; try done. by apply at_end_spec. }
      destruct Hhours as [-> | (h2 & Hh2 & ->)].
      + eexists h1, _. split; [done|]. left. done.
      + eexists h1, _. split; [done|]. right. exists h2. done. }
  assert (∀ cs, (match_hours cs = true ∨ ∃ rest, cs = "-" :: rest ∧ match_hours rest = true)
            ↔ ∃ sign hours m1 m2 s1 s2 rest,
                cs = sign ++ hours ++ ":" :: m1 :: m2 :: ":" :: s1 :: s2 :: rest
                ∧ (sign = [] ∨ sign = ["-"])
                ∧ hour_digits hours
                ∧ is_decimal m1 = true ∧ is_decimal m2 = true
                ∧ is_decimal s1 = true ∧ is_decimal s2 = true
                ∧ (rest = [] ∨ rest = [nl])) as Hsign.
  { intros cs. split.
    - intros [(hours & m1 & m2 & s1 & s2 & rest & -> & ? & ? & ? & ? & ? & ?)%Hhours
             | (t & -> & (hours & m1 & m2 & s1 & s2 & rest & -> & ? & ? & ? & ? & ? & ?)%Hhours)].
      + exists [], hours, m1, m2, s1, s2, rest. split_and!; try done. by left.
      + exists ["-"], hours, m1, m2, s1, s2, rest. split_and!; try done. by right.
    - intros (sign & hours & m1 & m2 & s1 & s2 & rest & -> & [-> | ->] & ?).
      + left. apply Hhours. by exists hours, m1, m2, s1, s2, rest.
      + right. eexists. split; [done|]. apply Hhours. by exists hours, m1, m2, s1, s2, rest. }
  rewrite Hsign. split.
  - intros (sign & hours & m1 & m2 & s1 & s2 & rest & Hcs & ? & ? & ? & ? & ? & ? & [-> | ->]).
    + left. by exists sign, hours, m1, m2, s1, s2.
    + right.
      change (":" :: m1 :: m2 :: ":" :: s1 :: s2 :: [nl])
        with ([":"; m1; m2; ":"; s1; s2] ++ [nl]) in Hcs.
      rewrite !app_assoc in Hcs. apply chars_newline in Hcs as (s' & -> & Hs').
      exists s'. split; [done|]. exists sign, hours, m1, m2, s1, s2.
      by rewrite <- !app_assoc in Hs'.
  - intros [(sign & hours & m1 & m2 & s1 & s2 & Hcs & H)
           | (s' & -> & sign & hours & m1 & m2 & s1 & s2 & Hcs & H)].
    + exists sign, hours, m1, m2, s1, s2, []. split; [done|].
      split_and!; try apply H. by left.
    + exists sign, hours, m1, m2, s1, s2, [nl].
      rewrite chars_append_newline, Hcs, <- !app_assoc. split; [done|].
      split_and!; try apply H. by right.
Qed.

Lemma check_time_str_strip (x : string) :
  check_time_str (strip x) = true ↔ hms_shape (strip x).
Proof.
  rewrite check_time_str_spec. split; [|by left].
  intros [? | (s' & Hs' & _)]; [done|]. by apply strip_no_newline in Hs'.
Qed.

(** *** The time fields *)

Lemma index_from_spec (x : string) (l : list string) :
  ∀ n i, index_from n x l = Ok i → n ≤ i ∧ l !! (i - n) = Some x.
Proof.
  induction l as [|y l IH]; intros n i; simpl; [done|].
  destruct (String.eqb y x) eqn:Hy.
  - apply String.eqb_eq in Hy as ->. intros [= ->].
    split; [lia|]. by rewrite Nat.sub_diag.
  - intros [Hle Hget]%IH. split; [lia|].
    replace (i - n) with (S (i - S n)) by lia. done.
Qed.

Lemma index_spec (l : list string) (x : string) (i : nat) :
  index l x = Ok i → l !! i = Some x.
Proof. intros [_ H]%index_from_spec. by rewrite Nat.sub_0_r in H. Qed.

Lemma map_result_index (col_names cols : list string) :
  ∀ idxs, map_result (index col_names) cols = Ok idxs →
          Forall (λ idx, idx < length col_names) idxs.
Proof.
  induction cols as [|c cols IH]; intros idxs; simpl.
  - by intros [= <-].
  - destruct (index col_names c) as [i|] eqn:Hi; simpl; [|done].
    destruct (map_result (index col_names) cols) as [rest|]; simpl; [|done].
    intros [= <-]. constructor; [|by apply IH].
    by apply index_spec, lookup_lt_Some in Hi.
Qed.

Lemma convert_time_loop (col_names : list string) (fname GTFSdir : string)
    (raw : list string) (idxs : list nat) :
  length raw = length col_names →
  Forall (λ idx, idx < length raw) idxs →
  ∀ ret : list value,
    length ret = length raw →
    match
      for_each idxs (convert_time_column col_names fname GTFSdir (VStr <$> raw)) ret
    with
    | Ok out =>
        length out = length raw
        ∧ ∀ i, out !! i =
               if decide (i ∈ idxs)
               then raw !! i ≫= (λ x, converted_time (strip x))
               else ret !! i
    | Raise e =>
        (∃ msg, e = CustomError msg)
        ∧ Exists (λ idx, ∃ x, raw !! idx = Some x ∧ converted_time (strip x) = None) idxs
    end.
Proof.
  intros Hcols Hall. induction Hall as [|idx idxs Hidx _ IH]; intros ret Hlen.
  - simpl. split; [done|]. intros i.
    destruct (decide (i ∈ [])) as [Hin|]; [by apply elem_of_nil in Hin | done].
  - destruct (lookup_lt_is_Some_2 raw idx Hidx) as [x Hx].
    cbn [for_each]. unfold convert_time_column at 1. unfold getitem at 1.
    rewrite list_lookup_fmap, Hx.
    cbn [fmap option_fmap option_map bind value_strip].
    set (body := convert_time_column col_names fname GTFSdir (VStr <$> raw)) in *.
    assert (∀ v, converted_time (strip x) = Some v →
              match for_each idxs body (<[idx := v]> ret) with
              | Ok out =>
                  length out = length raw
                  ∧ ∀ i, out !! i =
                         if decide (i ∈ idx :: idxs)
                         then raw !! i ≫= (λ x, converted_time (strip x))
                         else ret !! i
              | Raise e =>
                  (∃ msg, e = CustomError msg)
                  ∧ Exists (λ idx, ∃ x, raw !! idx = Some x
                                        ∧ converted_time (strip x) = None) (idx :: idxs)
              end) as Hstep.
    { intros v Hv. specialize (IH (<[idx := v]> ret)).
      rewrite length_insert in IH. specialize (IH Hlen).
      destruct (for_each idxs body (<[idx := v]> ret)) as [out|e].
      - destruct IH as [Hl Hget]. split; [done|]. intros i. rewrite Hget.
        destruct (decide (i = idx)) as [->|Hne].
        + rewrite (decide_True (P := idx ∈ idx :: idxs)) by apply list_elem_of_here.
          destruct (decide (idx ∈ idxs)); [done|].
          rewrite list_lookup_insert_eq by lia. rewrite Hx. simpl. by rewrite Hv.
        + destruct (decide (i ∈ idxs)) as [Hin|Hnin].
          * by rewrite (decide_True (P := i ∈ idx :: idxs))
              by (by apply list_elem_of_further).
          * rewrite (decide_False (P := i ∈ idx :: idxs)).
            -- by rewrite list_lookup_insert_ne.
            -- intros [?|?]%elem_of_cons; done.
      - destruct IH as [Hmsg Hex]. split; [done | by apply Exists_cons_tl]. }
    unfold converted_time in Hstep at 1.
    assert (converted_time (strip x) = None →
            Exists (λ idx, ∃ x, raw !! idx = Some x ∧ converted_time (strip x) = None)
                   (idx :: idxs)) as Hfail.
    { intros Hnone. apply Exists_cons_hd. by exists x. }
    unfold converted_time in Hfail at 1.
    destruct (check_time_str (strip x)); [by apply Hstep|].
    destruct (String.eqb (strip x) ""); [split; [by eexists | by apply Hfail]|].
    destruct (float (strip x)) as [y|]; [by apply Hstep|].
    unfold getitem. destruct (lookup_lt_is_Some_2 col_names idx) as [col ->]; [lia|].
    simpl. split; [by eexists | by apply Hfail].
Qed.

Lemma converted_time_shape (x : string) :
  hms_shape (strip x) → converted_time (strip x) = Some (VInt (str2sec (strip x))).
Proof. intros H%check_time_str_strip. unfold converted_time. by rewrite H. Qed.

Lemma converted_time_number (x : string) (y : F) :
  ¬ hms_shape (strip x) → strip x ≠ "" → float (strip x) = Some y →
  converted_time (strip x) = Some (VFloat y).
Proof.
  intros Hn He Hy. unfold converted_time.
  destruct (check_time_str (strip x)) eqn:Hc; [by apply check_time_str_strip in Hc|].
  apply String.eqb_neq in He as ->. by rewrite Hy.
Qed.

Lemma converted_time_refused (x : string) :
  ¬ hms_shape (strip x) → strip x = "" ∨ float (strip x) = None →
  converted_time (strip x) = None.
Proof.
  intros Hn Hbad. unfold converted_time.
  destruct (check_time_str (strip x)) eqn:Hc; [by apply check_time_str_strip in Hc|].
  destruct (String.eqb (strip x) "") eqn:He; [done|].
  apply String.eqb_neq in He. destruct Hbad as [? | ->]; done.
Qed.

(** C5.  In a row of text read under a header that has the time columns,
    the converter replaces each time field, without its surrounding
    whitespace, by the seconds the time parser gives when the field has
    the shape [-]?[H]H:MM:SS, and by its float value when it has not and
    is a number; the other fields stay.  A row with a time field that is
    empty, or that is neither of the shape nor a number, raises the abort
    error. *)
Theorem convert_time_columns_spec (col_names : list string) (fname GTFSdir : string)
    (time_columns : list string) (idxs : list nat) (raw : list string) :
  map_result (index col_names) time_columns = Ok idxs →
  length raw = length col_names →
  let converted := convert_time_columns col_names fname GTFSdir idxs (VStr <$> raw) in
  let number x := strip x ≠ "" ∧ is_Some (float (strip x)) in
  ((∀ idx x, idx ∈ idxs → raw !! idx = Some x → hms_shape (strip x) ∨ number x) →
   ∃ out,
     converted = Ok out
     ∧ length out = length raw
     ∧ (∀ idx x, idx ∈ idxs → raw !! idx = Some x → hms_shape (strip x) →
          out !! idx = Some (VInt (str2sec (strip x))))
     ∧ (∀ idx x y, idx ∈ idxs → raw !! idx = Some x → ¬ hms_shape (strip x) →
          float (strip x) = Some y → out !! idx = Some (VFloat y))
     ∧ (∀ i, i ∉ idxs → out !! i = VStr <$> raw !! i))
  ∧ ((∃ idx x, idx ∈ idxs ∧ raw !! idx = Some x ∧ strip x = "") →
     ∃ msg, converted = Raise (CustomError msg))
  ∧ ((∃ idx x, idx ∈ idxs ∧ raw !! idx = Some x
               ∧ ¬ hms_shape (strip x) ∧ float (strip x) = None) →
     ∃ msg, converted = Raise (CustomError msg)).
Proof.
  intros Hidxs Hlen converted number.
  assert (Forall (λ idx, idx < length raw) idxs) as Hall.
  { rewrite Hlen. by eapply map_result_index. }
  pose proof (convert_time_loop col_names fname GTFSdir raw idxs Hlen Hall
                (VStr <$> raw) (length_fmap _ _)) as Hloop.
  change (for_each idxs _ _) with converted in Hloop.
  assert (∀ idx x, idx ∈ idxs → raw !! idx = Some x →
            converted_time (strip x) = None → ∃ msg, converted = Raise (CustomError msg))
    as Hrefused.
  { intros idx x Hin Hx Hnone. destruct converted as [out|e].
    - destruct Hloop as [Hl Hget]. specialize (Hget idx).
      rewrite decide_True, Hx in Hget by done. simpl in Hget. rewrite Hnone in Hget.
      apply lookup_ge_None in Hget. apply lookup_lt_Some in Hx. lia.
    - destruct Hloop as [[msg ->] _]. by exists msg. }
  split_and!.
  - intros Hok. destruct converted as [out|e].
    + destruct Hloop as [Hl Hget]. exists out. split_and!; [done..| | |].
      * intros idx x Hin Hx Hshape. rewrite Hget, decide_True, Hx by done.
        simpl. by apply converted_time_shape.
      * intros idx x y Hin Hx Hshape Hy. rewrite Hget, decide_True, Hx by done.
        simpl. destruct (Hok idx x Hin Hx) as [?|[? _]]; [done|].
        by apply converted_time_number.
      * intros i Hi. by rewrite Hget, decide_False, list_lookup_fmap.
    + exfalso. destruct Hloop as [_ Hex]. apply Exists_exists in Hex
        as (idx & Hin & x & Hx & Hnone).
      destruct (Hok idx x Hin Hx) as [Hs | [Hne [y Hy]]].
      * by rewrite converted_time_shape in Hnone.
      * destruct (check_time_str (strip x)) eqn:Hc.
        -- apply check_time_str_strip in Hc. by rewrite converted_time_shape in Hnone.
        -- rewrite (converted_time_number x y) in Hnone; [done| |done..].
           intros Hs%check_time_str_strip. congruence.
  - intros (idx & x & Hin & Hx & Hempty). apply (Hrefused idx x Hin Hx).
    unfold converted_time. rewrite Hempty. done.
  - intros (idx & x & Hin & Hx & Hshape & Hnum). apply (Hrefused idx x Hin Hx).
    apply converted_time_refused; [done | by right].
Qed.

(** *** The coordinates of a stop *)

(** C6.  On a row of text that has its [stop_id], [stop_lat] and
    [stop_lon] fields, the check raises the abort error if and only if
    [stop_lat] or [stop_lon] is not a number, or the latitude is not in
    [-90, 90], or the longitude is not in [-180, 180]; it raises nothing
    else, its message starts by naming the [stop_id] of the row, and a row
    that is not refused is returned as it is. *)
Theorem check_latlon_cols_spec (col_names : list string) (fname : string)
    (raw : list string) (i_id i_lat i_lon : nat) (stop_id stop_lat stop_lon : string) :
  index col_names "stop_id" = Ok i_id →
  index col_names "stop_lat" = Ok i_lat →
  index col_names "stop_lon" = Ok i_lon →
  raw !! i_id = Some stop_id →
  raw !! i_lat = Some stop_lat →
  raw !! i_lon = Some stop_lon →
  let checked := check_latlon_cols col_names fname (VStr <$> raw) in
  ((∃ msg, checked = Raise (CustomError msg)) ↔ bad_latlon stop_lat stop_lon)
  ∧ (∀ e, checked = Raise e →
       ∃ rest, e = CustomError ("stop_id " +:+ dq +:+ stop_id +:+ dq +:+ rest))
  ∧ (¬ bad_latlon stop_lat stop_lon → checked = Ok (VStr <$> raw)).
Proof.
  intros Hid Hlat Hlon Rid Rlat Rlon checked. subst checked.
  unfold check_latlon_cols, bad_latlon, in_range, getitem.
  rewrite Hid, Hlat, Hlon. cbn [bind].
  rewrite !list_lookup_fmap, Rid, Rlat, Rlon. cbn [fmap option_fmap option_map bind].
  cbn [value_float str_value].
  unfold non_numerical_msg, out_of_range_msg.
  destruct (float stop_lat) as [x|] eqn:Hx.
  2:{ split_and!.
      - split; [by left | by eexists].
      - intros e [= <-]. by eexists.
      - intros Hbad. exfalso. apply Hbad. by left. }
  destruct (float stop_lon) as [y|] eqn:Hy.
  2:{ split_and!.
      - split; [right; by left | by eexists].
      - intros e [= <-]. by eexists.
      - intros Hbad. exfalso. apply Hbad. right. by left. }
  destruct (fle (float_lit (-90)) x && fle x (float_lit 90)) eqn:Hrx; cbn [negb].
  2:{ split_and!.
      - split; [|by eexists]. intros _. right. right. left. by exists x.
      - intros e [= <-]. by eexists.
      - intros Hbad. exfalso. apply Hbad. right. right. left. by exists x. }
  destruct (fle (float_lit (-180)) y && fle y (float_lit 180)) eqn:Hry; cbn [negb].
  2:{ split_and!.
      - split; [|by eexists]. intros _. right. right. right. by exists y.
      - intros e [= <-]. by eexists.
      - intros Hbad. exfalso. apply Hbad. right. right. right. by exists y. }
  split_and!; [|done..]. split; [by intros [? ?]|].
  intros [?|[?|[(x' & [= <-] & Hf)|(y' & [= <-] & Hf)]]]; congruence.
Qed.

(** *** The files of a dataset *)

Lemma foldl_scan_file (fs : file_system) (gtfs_dir : string) (fnames : list string) :
  ∀ csvs missing has_a_calendar,
    foldl (scan_file fs gtfs_dir) (csvs, missing, has_a_calendar) fnames
    = (csvs ++ (path_join gtfs_dir <$> filter (λ fname, present fs gtfs_dir fname) fnames),
       missing
       ++ filter (λ fname,
                    negb (present fs gtfs_dir fname)
                    ∧ negb (list_has ["calendar.txt"; "calendar_dates.txt";
                                      "frequencies.txt"] fname))
                 fnames,
       has_a_calendar
       || existsb (λ fname, present fs gtfs_dir fname
                            && list_has ["calendar_dates.txt"; "calendar.txt"] fname)
                  fnames).
Proof.
  induction fnames as [|fname fnames IH]; intros csvs missing has_a_calendar.
  - simpl. by rewrite !app_nil_r, orb_false_r.
  - cbn [foldl existsb].
    assert (scan_file fs gtfs_dir (csvs, missing, has_a_calendar) fname
            = if present fs gtfs_dir fname
              then (csvs ++ [path_join gtfs_dir fname], missing,
                    if list_has ["calendar_dates.txt"; "calendar.txt"] fname
                    then true else has_a_calendar)
              else (csvs,
                    (if negb (list_has ["calendar.txt"; "calendar_dates.txt";
                                        "frequencies.txt"] fname)
                     then missing ++ [fname] else missing),
                    has_a_calendar)) as -> by done.
    assert (present fs gtfs_dir fname = true ∨ present fs gtfs_dir fname = false)
      as [Hp|Hp] by (destruct (present fs gtfs_dir fname); auto).
    + rewrite Hp, IH.
      rewrite (filter_cons_True (λ f, present fs gtfs_dir f)) by (by apply Is_true_true).
      rewrite filter_cons_False by (rewrite Hp; by intros [? _]).
      rewrite fmap_cons, <- app_assoc. cbn [andb app].
      destruct (list_has ["calendar_dates.txt"; "calendar.txt"] fname), has_a_calendar;
        reflexivity.
    + rewrite Hp, IH.
      rewrite (filter_cons_False (λ f, present fs gtfs_dir f)) by (by apply Is_true_false).
      cbn [andb orb].
      assert (list_has ["calendar.txt"; "calendar_dates.txt"; "frequencies.txt"] fname = true
              ∨ list_has ["calendar.txt"; "calendar_dates.txt"; "frequencies.txt"] fname
                = false) as [Ho|Ho] by (destruct (list_has _ fname); auto).
      * rewrite Ho. cbn [negb].
        by rewrite filter_cons_False by (rewrite Ho; by intros [_ ?]).
      * rewrite Ho. cbn [negb]. rewrite filter_cons_True by (by rewrite Hp, Ho).
        by rewrite <- app_assoc.
Qed.

Lemma scan_files_spec (fs : file_system) (gtfs_dir : string) :
  scan_files fs gtfs_dir
  = (path_join gtfs_dir <$> filter (λ fname, present fs gtfs_dir fname) csv_fnames,
     filter (λ fname, negb (present fs gtfs_dir fname)) required_files,
     present fs gtfs_dir "calendar.txt" || present fs gtfs_dir "calendar_dates.txt").
Proof.
  unfold scan_files. rewrite foldl_scan_file. f_equal; [f_equal|].
  - rewrite <- list_filter_filter. f_equal.
  - cbn. by rewrite !andb_false_r, !andb_true_r, !orb_false_r.
Qed.

Lemma missing_files_spec (fs : file_system) (gtfs_dir : string) :
  missing_files fs gtfs_dir
  = filter (λ fname, negb (present fs gtfs_dir fname)) required_files
    ++ (if present fs gtfs_dir "calendar.txt" || present fs gtfs_dir "calendar_dates.txt"
        then [] else [calendar_requirement]).
Proof.
  unfold missing_files. rewrite scan_files_spec.
  destruct (_ || _); simpl; [by rewrite app_nil_r | done].
Qed.

Lemma missing_files_nil (fs : file_system) (gtfs_dir : string) :
  missing_files fs gtfs_dir = []
  ↔ (∀ fname, fname ∈ required_files → present fs gtfs_dir fname = true)
    ∧ (present fs gtfs_dir "calendar.txt" = true
       ∨ present fs gtfs_dir "calendar_dates.txt" = true).
Proof.
  rewrite missing_files_spec. split.
  - intros [Hreq Hcal]%app_eq_nil. split.
    + intros fname Hin. destruct (present fs gtfs_dir fname) eqn:Hp; [done|].
      assert (fname ∈ filter (λ fname, negb (present fs gtfs_dir fname)) required_files)
        as Hf by (apply list_elem_of_filter; by rewrite Hp).
      rewrite Hreq in Hf. by apply elem_of_nil in Hf.
    + apply orb_true_iff. by destruct (_ || _).
  - intros [Hreq Hcal]. apply orb_true_iff in Hcal as ->. rewrite app_nil_r.
    apply elem_of_nil_inv. intros fname [Hn Hin]%list_elem_of_filter.
    by rewrite (Hreq fname Hin) in Hn.
Qed.

Lemma handle_agency_spec (fs : file_system) (gtfs_dir : string) :
  handle_agency fs gtfs_dir
  = match missing_files fs gtfs_dir with
    | [] =>
        except_UnicodeDecodeError (dataset_label gtfs_dir)
          (map_result (λ fname2, handle_file fs fname2 (dataset_label gtfs_dir))
             (path_join gtfs_dir <$> filter (λ fname, present fs gtfs_dir fname) csv_fnames))
    | _ :: _ =>
        Raise (CustomError
                 ("GTFS dataset " +:+ dataset_label gtfs_dir +:+
                  " is missing files required for this tool: " +:+
                  str_list repr_str (missing_files fs gtfs_dir)))
    end.
Proof.
  unfold handle_agency. rewrite scan_files_spec.
  by destruct (missing_files fs gtfs_dir).
Qed.

Lemma map_result_ok {A B} (f : A → result B) (l : list A) :
  Forall (λ x, is_ok (f x) = true) l → is_ok (map_result f l) = true.
Proof.
  induction 1 as [|x l Hx _ IH]; simpl; [done|].
  destruct (f x); [|done]. simpl. by destruct (map_result f l).
Qed.

Lemma map_result_raise {A B} (f : A → result B) (l : list A) (e : exn) :
  map_result f l = Raise e → ∃ x, x ∈ l ∧ f x = Raise e.
Proof.
  induction l as [|x l IH]; simpl; [done|].
  destruct (f x) as [y|e'] eqn:Hx; simpl.
  - destruct (map_result f l) as [ys|e'']; simpl; [done|].
    intros [= ->]. destruct IH as (x' & Hin & Hx'); [done|].
    exists x'. split; [by apply list_elem_of_further | done].
  - intros [= ->]. exists x. split; [apply list_elem_of_here | done].
Qed.

(** C8 (amended).  The files the loader reports as missing are those of
    stops, stop_times, trips and routes that the directory has not,
    followed by the entry for the two calendar files when it has neither;
    the file of frequencies is never one of them.  The loader raises the
    abort error at this check, with a message that lists all of them,
    exactly when one is missing.  When none is missing it goes on to import
    the files that are there, and raises the abort error exactly when the
    import of one of them raises it or cannot decode the file; whatever it
    raises then is raised by the import of one of these files. *)
Theorem handle_agency_missing_files (fs : file_system) (gtfs_dir : string) :
  let missing := missing_files fs gtfs_dir in
  let present_files := filter (λ fname, present fs gtfs_dir fname) csv_fnames in
  let import fname2 := handle_file fs fname2 (dataset_label gtfs_dir) in
  let imported := map_result import (path_join gtfs_dir <$> present_files) in
  missing
  = filter (λ fname, negb (present fs gtfs_dir fname)) required_files
    ++ (if present fs gtfs_dir "calendar.txt" || present fs gtfs_dir "calendar_dates.txt"
        then [] else [calendar_requirement])
  ∧ (missing ≠ []
     ↔ (∃ fname, fname ∈ required_files ∧ present fs gtfs_dir fname = false)
       ∨ (present fs gtfs_dir "calendar.txt" = false
          ∧ present fs gtfs_dir "calendar_dates.txt" = false))
  ∧ (missing ≠ [] →
     handle_agency fs gtfs_dir
     = Raise (CustomError
                ("GTFS dataset " +:+ dataset_label gtfs_dir +:+
                 " is missing files required for this tool: " +:+
                 str_list repr_str missing)))
  ∧ (missing = [] →
     handle_agency fs gtfs_dir
     = match imported with
       | Raise UnicodeDecodeError =>
           Raise (CustomError
                    ("Unicode decoding of GTFS dataset " +:+ dataset_label gtfs_dir +:+
                     " failed. Please ensure that your GTFS files have the proper utf-8 encoding required by the GTFS specification."))
       | _ => imported
       end)
  ∧ (is_custom_error (handle_agency fs gtfs_dir) = true
     ↔ missing ≠ []
       ∨ (missing = []
          ∧ (is_custom_error imported = true ∨ imported = Raise UnicodeDecodeError)))
  ∧ (∀ e, imported = Raise e →
       ∃ fname, fname ∈ present_files ∧ import (path_join gtfs_dir fname) = Raise e)
  ∧ (Forall (λ fname, is_ok (import (path_join gtfs_dir fname)) = true) present_files →
     (is_custom_error (handle_agency fs gtfs_dir) = true ↔ missing ≠ [])).
Proof.
  intros missing present_files import imported.
  pose proof (handle_agency_spec fs gtfs_dir) as Hspec.
  fold missing present_files import imported in Hspec.
  split_and!.
  - apply missing_files_spec.
  - split.
    + intros Hne.
      destruct (decide (Forall (λ fname, present fs gtfs_dir fname = true) required_files))
        as [Hall|Hnot].
      * right. rewrite Forall_forall in Hall.
        destruct (present fs gtfs_dir "calendar.txt") eqn:H1.
        { exfalso. apply Hne, missing_files_nil. rewrite H1. auto. }
        destruct (present fs gtfs_dir "calendar_dates.txt") eqn:H2; [|done].
        exfalso. apply Hne, missing_files_nil. rewrite H2. auto.
      * left. apply not_Forall_Exists in Hnot; [|apply _].
        apply Exists_exists in Hnot as (fname & Hin & Hp). exists fname.
        split; [done|]. by apply not_true_is_false.
    + intros Hmiss Hnil. apply missing_files_nil in Hnil as [Hreq Hcal].
      destruct Hmiss as [(fname & Hin & Hp) | [H1 H2]].
      * by rewrite (Hreq fname Hin) in Hp.
      * destruct Hcal; congruence.
  - intros Hne. rewrite Hspec. by destruct missing.
  - intros Hnil. rewrite Hspec. by rewrite Hnil.
  - rewrite Hspec. destruct missing as [|m ms].
    + unfold except_UnicodeDecodeError. split.
      * intros Hc. right. split; [done|].
        destruct imported as [?|[]]; try done; [by left | by right].
      * intros [? | [_ [Hc | ->]]]; [done | | done].
        by destruct imported as [?|[]].
    + split; [by left | done].
  - intros e (fname2 & (fname & -> & Hin)%list_elem_of_fmap & He)%map_result_raise.
    by exists fname.
  - intros Hok. rewrite Hspec. destruct missing as [|m ms]; [|done].
    split; [|done]. intros Hc.
    assert (is_ok imported = true) as Hr.
    { apply map_result_ok. by apply Forall_fmap. }
    by destruct imported.
Qed.

(** *** Structural failures *)

Lemma check_required_loop (tablename dataset : string) (columns : list string)
    (tbl : table_spec) :
  for_each tbl
    (λ _ entry,
       if is_required entry.2.2
       then if negb (list_has columns entry.1)
            then Raise (CustomError (missing_field_msg tablename dataset entry.1))
            else Ok tt
       else Ok tt)
    tt
  = match first_missing_field tbl columns with
    | Some col => Raise (CustomError (missing_field_msg tablename dataset col))
    | None => Ok tt
    end.
Proof.
  unfold first_missing_field, table_spec in *.
  induction tbl as [|[col [ty req]] tbl IH]; [done|].
  cbn [for_each fst snd].
  destruct (is_required req) eqn:Hreq; [destruct (list_has columns col) eqn:Hcol|];
    cbn [negb bind].
  - rewrite filter_cons_False; [done|]. cbn [fst snd]. rewrite Hreq, Hcol.
    by apply Is_true_false.
  - rewrite filter_cons_True; [done|]. cbn [fst snd]. rewrite Hreq, Hcol.
    by apply Is_true_true.
  - rewrite filter_cons_False; [done|]. cbn [fst snd]. rewrite Hreq.
    by apply Is_true_false.
Qed.

Lemma check_for_required_fields_spec (tablename dataset : string) (columns : list string)
    (tbl : table_spec) :
  dict_get sql_schema tablename = Ok tbl →
  check_for_required_fields tablename columns dataset
  = match first_missing_field tbl columns with
    | Some col => Raise (CustomError (missing_field_msg tablename dataset col))
    | None => Ok tt
    end.
Proof.
  intros Htbl. unfold check_for_required_fields. rewrite Htbl. cbn [bind].
  apply check_required_loop.
Qed.

(** The projector refuses every row whose length is not that of the
    header. *)
Lemma drop_fields_wrong_length {A} (str_row : list A → string) (tablename : string)
    (columns : list string) (env : remove_extra_fields) (in_row : list A) :
  make_remove_extra_fields tablename columns = Ok env →
  length in_row ≠ length columns →
  drop_fields env str_row in_row
  = Raise (CustomError (wrong_fields_msg tablename columns (str_row in_row))).
Proof.
  unfold make_remove_extra_fields.
  destruct (dict_get sql_schema tablename) as [tbl|]; [|done].
  intros [= <-] Hlen. unfold drop_fields. cbn [orig_num_fields rf_tablename rf_columns].
  by apply Nat.eqb_neq in Hlen as ->.
Qed.

(** C9 (amended).  When required files are missing the message lists
    every one of them.  When required columns are missing the check stops
    at the first of them, in the order of the registry, and its message
    names this one column.  A row of the wrong length is refused with a
    message that names the table, the header and the row. *)
Theorem structural_failure_messages {A} (str_row : list A → string) (fs : file_system)
    (gtfs_dir tablename dataset : string) (tbl : table_spec) (columns : list string)
    (in_row : list A) :
  dict_get sql_schema tablename = Ok tbl →
  (missing_files fs gtfs_dir ≠ [] →
   handle_agency fs gtfs_dir
   = Raise (CustomError
              ("GTFS dataset " +:+ dataset_label gtfs_dir +:+
               " is missing files required for this tool: " +:+
               str_list repr_str (missing_files fs gtfs_dir))))
  ∧ check_for_required_fields tablename columns dataset
    = match first_missing_field tbl columns with
      | Some col =>
          Raise (CustomError
                   ("GTFS file " +:+ tablename +:+ ".txt in dataset " +:+ dataset +:+
                    " is missing required field '" +:+ col +:+
                    "'. Failed to SQLize GTFS data"))
      | None => Ok tt
      end
  ∧ (length in_row ≠ length columns →
     ∃ env,
       make_remove_extra_fields tablename columns = Ok env
       ∧ drop_fields env str_row in_row
         = Raise (CustomError
                    ("GTFS table " +:+ tablename +:+
                     " contains at least one row with the wrong number of fields. Fields: "
                     +:+ str_list repr_str columns +:+ "; Row: " +:+ str_row in_row))).
Proof.
  intros Htbl. split_and!.
  - intros Hne. rewrite handle_agency_spec. by destruct (missing_files fs gtfs_dir).
  - by apply check_for_required_fields_spec.
  - intros Hlen.
    assert (∃ env, make_remove_extra_fields tablename columns = Ok env) as [env Henv].
    { unfold make_remove_extra_fields. rewrite Htbl. by eexists. }
    exists env. split; [done|]. by apply drop_fields_wrong_length.
Qed.

(** *** Rows shorter than the header *)

Lemma add_labels_loop_short (service : string) (raw : list string) (idxs : list nat) :
  Exists (λ idx, length raw ≤ idx) idxs →
  ∀ ret : list value,
    for_each idxs
      (λ ret idx,
         let* field := getitem (VStr <$> raw) idx in
         let* stripped := value_strip field in
         Ok (<[idx := VStr (service +:+ ":" +:+ stripped)]> ret))
      ret = Raise IndexError.
Proof.
  induction idxs as [|idx idxs IH]; intros Hex ret.
  - by apply Exists_nil in Hex.
  - cbn [for_each]. unfold getitem at 1. rewrite list_lookup_fmap.
    destruct (raw !! idx) as [x|] eqn:Hx; cbn [fmap option_fmap option_map bind value_strip].
    + apply IH. apply Exists_cons in Hex as [Hle|?]; [|done].
      apply lookup_lt_Some in Hx. lia.
    + done.
Qed.

(** The namespacer runs before the projector, on rows the projector has
    not seen: a row of text that ends before one of the identifier columns
    of the header raises [IndexError] there. *)
Lemma make_add_agency_labels_short_row (service : string) (columns raw : list string)
    (idx : nat) (field : string) :
  columns !! idx = Some field → is_id_column field = true → length raw ≤ idx →
  make_add_agency_labels service columns (VStr <$> raw) = Raise IndexError.
Proof.
  intros Hf Hid Hlen. unfold make_add_agency_labels, add_labels.
  apply add_labels_loop_short. apply Exists_exists. exists idx. split; [|done].
  apply elem_of_elements, labelled_columns_spec. by exists field.
Qed.

(** C7.  The import of a trips.txt whose header has three columns and
    whose only row has two fields stops with [IndexError], raised by the
    namespacer, and not with the abort error of the projector. *)
Theorem handle_file_short_row :
  basename "trips" = "trips" →
  handle_file short_row_fs "trips.txt" "cta" = Raise IndexError.
Proof.
  intros Hbase. unfold handle_file.
  replace (basename (if endswith "trips.txt" ".txt"
                     then drop_last4 "trips.txt" else "trips.txt")) with "trips"
    by (symmetry; exact Hbase).
  vm_compute. reflexivity.
Qed.

(** ** Further properties *)

(** *** [check_time_str] *)

(** X1.  [check_time_str] accepts the strings of the shape [-]?[H]H:MM:SS
    and those of the shape followed by one newline, and no other.  No range
    is checked: any digits are taken for the hours, the minutes and the
    seconds. *)
Theorem check_time_str_language (s : string) :
  (check_time_str s = true ↔ hms_shape s ∨ ∃ s', s = s' +:+ nl ∧ hms_shape s')
  ∧ (∀ h1 h2 m1 m2 s1 s2,
       is_decimal h1 = true → is_decimal h2 = true →
       is_decimal m1 = true → is_decimal m2 = true →
       is_decimal s1 = true → is_decimal s2 = true →
       chars s = [h1; h2; ":"; m1; m2; ":"; s1; s2] →
       check_time_str s = true).
Proof.
  split; [apply check_time_str_spec|].
  intros h1 h2 m1 m2 s1 s2 H1 H2 H3 H4 H5 H6 Hs.
  apply check_time_str_spec. left.
  exists [], [h1; h2], m1, m2, s1, s2.
  split_and!; try done; [by left|].
  exists h1. split; [done|]. right. by exists h2.
Qed.

(** *** [check_for_required_fields] *)

Lemma list_has_elem_of (l : list string) (x : string) : list_has l x = true ↔ x ∈ l.
Proof.
  unfold list_has. induction l as [|y l IH]; simpl.
  - by rewrite elem_of_nil.
  - rewrite orb_true_iff, IH, String.eqb_eq, elem_of_cons.
    split; (intros [->|?]; [by left | by right]).
Qed.

Lemma first_missing_field_None (tbl : table_spec) (columns : list string) :
  first_missing_field tbl columns = None
  ↔ ∀ col ty, (col, (ty, Required)) ∈ tbl → col ∈ columns.
Proof.
  unfold first_missing_field, table_spec in *.
  rewrite fmap_None, head_None. split.
  - intros Hnil col ty Hin.
    destruct (list_has columns col) eqn:Hcol; [by apply list_has_elem_of|].
    assert ((col, (ty, Required))
            ∈ filter (λ entry : string * (sql_type * requirement),
                        is_required entry.2.2 && negb (list_has columns entry.1)) tbl) as Hf.
    { apply list_elem_of_filter. split; [|done]. simpl. by rewrite Hcol. }
    rewrite Hnil in Hf. by apply elem_of_nil in Hf.
  - intros Hall. apply elem_of_nil_inv. intros [col [ty req]] [Hp Hin]%list_elem_of_filter.
    simpl in Hp. apply andb_True in Hp as [Hreq Hcol].
    destruct req; [|done]. apply negb_True in Hcol. apply Hcol, Is_true_true.
    apply list_has_elem_of. by eapply Hall.
Qed.

Lemma first_missing_field_Some (tbl : table_spec) (columns : list string) (col : string) :
  first_missing_field tbl columns = Some col →
  (col ∉ columns) ∧ ∃ ty, (col, (ty, Required)) ∈ tbl.
Proof.
  unfold first_missing_field, table_spec in *.
  destruct (head _) as [[c [ty req]]|] eqn:Hhead; simpl; [|done].
  intros [= <-]. apply head_Some_elem_of, list_elem_of_filter in Hhead as [Hp Hin].
  simpl in Hp. apply andb_True in Hp as [Hreq Hcol]. destruct req; [|done].
  split; [|by exists ty].
  intros Hc%list_has_elem_of. rewrite Hc in Hcol. done.
Qed.

(** X2.  For a table of the registry, the check of the required fields
    passes exactly when the header has every column the registry marks
    required; otherwise it raises the abort error, and nothing else.  For a
    name that is not a table of the registry it raises [KeyError]. *)
Theorem check_for_required_fields_passes (tablename dataset : string)
    (columns : list string) :
  (∀ tbl, dict_get sql_schema tablename = Ok tbl →
     (check_for_required_fields tablename columns dataset = Ok tt
      ↔ ∀ col ty, (col, (ty, Required)) ∈ tbl → col ∈ columns)
     ∧ (check_for_required_fields tablename columns dataset ≠ Ok tt →
        ∃ col ty, (col, (ty, Required)) ∈ tbl ∧ (col ∉ columns)
                  ∧ check_for_required_fields tablename columns dataset
                    = Raise (CustomError (missing_field_msg tablename dataset col))))
  ∧ (dict_has sql_schema tablename = false →
     check_for_required_fields tablename columns dataset = Raise KeyError).
Proof.
  split.
  - intros tbl Htbl. rewrite (check_for_required_fields_spec _ _ _ _ Htbl).
    destruct (first_missing_field tbl columns) as [col|] eqn:Hfirst.
    + pose proof (first_missing_field_Some _ _ _ Hfirst) as [Hnot [ty Hin]]. split.
      * split; [done|]. intros Hall. exfalso. apply Hnot. by eapply Hall.
      * intros _. by exists col, ty.
    + split; [|done]. split; [|done]. intros _. by apply first_missing_field_None.
  - intros Hno. unfold check_for_required_fields.
    assert (dict_get sql_schema tablename = Raise KeyError) as ->; [|done].
    revert Hno. unfold dict_has. generalize sql_schema.
    induction l as [|[k v] l IH]; simpl; [done|].
    destruct (String.eqb k tablename); simpl; [done | apply IH].
Qed.

(** *** [smarter_convert_times] *)

Lemma index_from_first (x : string) (l : list string) :
  ∀ n i, index_from n x l = Ok i → ∀ j, n ≤ j → j < i → l !! (j - n) ≠ Some x.
Proof.
  induction l as [|y l IH]; intros n i; simpl; [done|].
  destruct (String.eqb y x) eqn:Hy.
  - intros [= ->] j ? ?. lia.
  - intros Hi j Hn Hj. destruct (decide (j = n)) as [->|Hne].
    + rewrite Nat.sub_diag. simpl. intros [= ->]. by rewrite String.eqb_refl in Hy.
    + replace (j - n) with (S (j - S n)) by lia. simpl. eapply IH; [done | lia | done].
Qed.

Lemma index_from_total (x : string) (l : list string) :
  ∀ n, (x ∈ l → ∃ i, index_from n x l = Ok i)
       ∧ (x ∉ l → index_from n x l = Raise ValueError).
Proof.
  induction l as [|y l IH]; intros n; simpl.
  - split; [by intros ?%elem_of_nil | done].
  - destruct (String.eqb y x) eqn:Hy.
    + apply String.eqb_eq in Hy as ->. split; [by eexists|].
      intros Hnot. exfalso. apply Hnot. by left.
    + apply String.eqb_neq in Hy. destruct (IH (S n)) as [IH1 IH2]. split.
      * intros [->|Hin]%elem_of_cons; [done | by apply IH1].
      * intros Hnot. apply IH2. intros Hin. apply Hnot. by right.
Qed.

Lemma map_result_index_total (col_names cols : list string) :
  ((∀ c, c ∈ cols → c ∈ col_names) →
   ∃ idxs,
     map_result (index col_names) cols = Ok idxs
     ∧ Forall2 (λ c i, col_names !! i = Some c ∧ ∀ j, j < i → col_names !! j ≠ Some c)
               cols idxs)
  ∧ ((∃ c, c ∈ cols ∧ c ∉ col_names) →
     map_result (index col_names) cols = Raise ValueError).
Proof.
  induction cols as [|c cols [IH1 IH2]]; simpl.
  - split; [intros _; by exists [] | by intros (? & ?%elem_of_nil & _)].
  - destruct (index_from_total c col_names 0) as [Hin Hout]. fold (index col_names c) in *.
    split.
    + intros Hall. destruct Hin as [i Hi]; [apply Hall; by left|].
      destruct IH1 as (idxs & Hidxs & Hall2); [intros ? ?; apply Hall; by right|].
      exists (i :: idxs). rewrite Hi, Hidxs. simpl. split; [done|].
      constructor; [|done]. split; [by apply index_spec|].
      intros j Hj. pose proof (index_from_first c col_names 0 i Hi j) as Hf.
      rewrite Nat.sub_0_r in Hf. apply Hf; lia.
    + intros (c' & [->|Hc']%elem_of_cons & Hnot).
      * by rewrite (Hout Hnot).
      * destruct (decide (c ∈ col_names)) as [Hc|Hc].
        -- destruct (Hin Hc) as [i ->]. simpl. rewrite IH2; [done | by exists c'].
        -- by rewrite (Hout Hc).
Qed.

(** X3.  [smarter_convert_times] raises [ValueError], before any row is
    read, when the header lacks one of the time columns.  Otherwise it
    raises nothing itself: it returns an iterator with one element per row,
    which converts each row at the first position of each time column in
    the header. *)
Theorem smarter_convert_times_columns (rows : iter (list value))
    (col_names : list string) (fname GTFSdir : string) (time_columns : list string) :
  ((∃ c, c ∈ time_columns ∧ c ∉ col_names) →
   smarter_convert_times rows col_names fname GTFSdir time_columns = Raise ValueError)
  ∧ ((∀ c, c ∈ time_columns → c ∈ col_names) →
     ∃ idxs converted,
       smarter_convert_times rows col_names fname GTFSdir time_columns = Ok converted
       ∧ converted = py_map (convert_time_columns col_names fname GTFSdir idxs) rows
       ∧ length converted = length rows
       ∧ Forall2 (λ c i, col_names !! i = Some c ∧ ∀ j, j < i → col_names !! j ≠ Some c)
                 time_columns idxs).
Proof.
  destruct (map_result_index_total col_names time_columns) as [Hok Hbad].
  unfold smarter_convert_times. split.
  - intros Hmissing. by rewrite (Hbad Hmissing).
  - intros Hall. destruct (Hok Hall) as (idxs & -> & Hidxs). simpl.
    eexists idxs, _. split_and!; [done | done | | done].
    unfold py_map. by rewrite length_map.
Qed.

(** X4.  In [handle_file] the check of the required fields comes first:
    when it has passed for stop_times, or for frequencies, the conversion
    of the times finds its two columns and does not raise. *)
Theorem required_fields_then_times (rows : iter (list value)) (columns : list string)
    (fname service_label tablename : string) (time_columns : list string) :
  (tablename = "stop_times" ∧ time_columns = ["arrival_time"; "departure_time"])
  ∨ (tablename = "frequencies" ∧ time_columns = ["start_time"; "end_time"]) →
  check_for_required_fields tablename columns service_label = Ok tt →
  ∃ i j,
    smarter_convert_times rows columns fname service_label time_columns
    = Ok (py_map (convert_time_columns columns fname service_label [i; j]) rows)
    ∧ Forall2 (λ c k, columns !! k = Some c) time_columns [i; j].
Proof.
  intros Htable Hcheck.
  assert (∀ c, c ∈ time_columns → c ∈ columns) as Hall.
  { destruct Htable as [[-> ->] | [-> ->]];
      (erewrite check_for_required_fields_spec in Hcheck by reflexivity;
       match type of Hcheck with
       | match ?first with _ => _ end = _ =>
           destruct first eqn:Hfirst; [done|]
       end;
       pose proof (proj1 (first_missing_field_None _ _) Hfirst) as Hreq;
       intros c [->|[->|?%elem_of_nil]%elem_of_cons]%elem_of_cons; [| |done];
       apply (Hreq _ REAL);
       repeat (first [apply list_elem_of_here | apply list_elem_of_further])). }
  destruct (map_result_index_total columns time_columns) as [Hok _].
  destruct (Hok Hall) as (idxs & Hidxs & Hpos).
  assert (length idxs = 2) as Hlen.
  { apply Forall2_length in Hpos. rewrite <- Hpos.
    by destruct Htable as [[_ ->] | [_ ->]]. }
  destruct idxs as [|i [|j [|]]]; try done.
  exists i, j. unfold smarter_convert_times. rewrite Hidxs. split; [done|].
  eapply Forall2_impl; [done|]. by intros ? ? [? _].
Qed.

(** *** [make_add_agency_labels] on rows of any length *)

Lemma add_labels_length (service : string) (s : gset nat) (row out : list value) :
  add_labels service s row = Ok out → length out = length row.
Proof.
  unfold add_labels. generalize (elements s). intros idxs.
  assert (∀ ret,
            for_each idxs
              (λ ret idx,
                 let* field := getitem row idx in
                 let* stripped := value_strip field in
                 Ok (<[idx := VStr (service +:+ ":" +:+ stripped)]> ret))
              ret = Ok out → length out = length ret) as Hloop.
  { induction idxs as [|idx idxs IH]; intros ret; simpl.
    - by intros [= ->].
    - destruct (getitem row idx) as [v|]; simpl; [|done].
      destruct (value_strip v) as [stripped|]; simpl; [|done].
      intros Hout%IH. by rewrite length_insert in Hout. }
  apply Hloop.
Qed.

Lemma make_add_agency_labels_within (service : string) (columns raw : list string) :
  (∀ idx field, columns !! idx = Some field → is_id_column field = true →
                idx < length raw) →
  ∃ out,
    make_add_agency_labels service columns (VStr <$> raw) = Ok out
    ∧ length out = length raw
    ∧ ∀ i x, raw !! i = Some x →
        out !! i
        = Some (VStr (match columns !! i with
                      | Some field =>
                          if is_id_column field
                          then sub_non_alnum service +:+ ":" +:+ strip x else x
                      | None => x
                      end)).
Proof.
  intros Hin. unfold make_add_agency_labels, add_labels.
  destruct (add_labels_loop (sub_non_alnum service) raw
              (elements (labelled_columns columns)) (VStr <$> raw))
    as (out & Hout & Hl & Hget).
  { by rewrite length_fmap. }
  { apply Forall_forall. intros idx Hidx.
    apply elem_of_elements, labelled_columns_spec in Hidx as (field & Hf & Hid).
    by eapply Hin. }
  exists out. split_and!; [done..|]. intros i x Hx. rewrite Hget.
  destruct (decide (i ∈ elements (labelled_columns columns))) as [Hi|Hi].
  - rewrite Hx. simpl.
    apply elem_of_elements, labelled_columns_spec in Hi as (field & -> & ->). done.
  - rewrite list_lookup_fmap, Hx. simpl. do 2 f_equal.
    destruct (columns !! i) as [field|] eqn:Hf; [|done].
    destruct (is_id_column field) eqn:Hid; [|done].
    exfalso. apply Hi, elem_of_elements, labelled_columns_spec. by exists field.
Qed.

(** X5.  On a row of text of any length, the function built by
    [make_add_agency_labels] raises [IndexError] when the row ends before
    one of the identifier columns of the header, and otherwise returns a
    row of the same length, in which the fields under an identifier column
    are labelled and all others, those beyond the header included, are as
    they were. *)
Theorem make_add_agency_labels_any_length (service : string) (columns raw : list string) :
  ((∃ idx field, columns !! idx = Some field ∧ is_id_column field = true
                 ∧ length raw ≤ idx) →
   make_add_agency_labels service columns (VStr <$> raw) = Raise IndexError)
  ∧ ((∀ idx field, columns !! idx = Some field → is_id_column field = true →
                   idx < length raw) →
     ∃ out,
       make_add_agency_labels service columns (VStr <$> raw) = Ok out
       ∧ length out = length raw
       ∧ ∀ i x, raw !! i = Some x →
           out !! i
           = Some (VStr (match columns !! i with
                         | Some field =>
                             if is_id_column field
                             then sub_non_alnum service +:+ ":" +:+ strip x else x
                         | None => x
                         end))).
Proof.
  split.
  - intros (idx & field & Hf & Hid & Hlen). by eapply make_add_agency_labels_short_row.
  - apply make_add_agency_labels_within.
Qed.

(** *** The header and the rows after [drop_fields] *)

Lemma declared_fields_header (tbl : table_spec) (columns : list string) :
  declared_fields tbl columns columns = filter (λ c, dict_has tbl c) columns.
Proof.
  unfold declared_fields. induction columns as [|c columns IH]; [done|].
  cbn [zip_with]. destruct (dict_has tbl c) eqn:Hc.
  - rewrite (filter_cons_True (λ p : string * string, dict_has tbl p.1))
      by (by apply Is_true_true).
    rewrite (filter_cons_True (λ c : string, dict_has tbl c)) by (by apply Is_true_true).
    cbn [fmap list_fmap snd]. f_equal. apply IH.
  - rewrite (filter_cons_False (λ p : string * string, dict_has tbl p.1))
      by (by apply Is_true_false).
    rewrite (filter_cons_False (λ c : string, dict_has tbl c)) by (by apply Is_true_false).
    done.
Qed.

Lemma zip_declared_fields {A} (tbl : table_spec) (columns : list string) :
  ∀ row : list A,
    length row = length columns →
    zip (filter (λ c, dict_has tbl c) columns) (declared_fields tbl columns row)
    = filter (λ p, dict_has tbl p.1) (zip columns row).
Proof.
  unfold declared_fields.
  induction columns as [|c columns IH]; intros [|x row] Hlen; simpl in Hlen; try lia;
    [done|].
  cbn [zip_with]. destruct (dict_has tbl c) eqn:Hc.
  - rewrite (filter_cons_True (λ p : string * A, dict_has tbl p.1))
      by (by apply Is_true_true).
    rewrite (filter_cons_True (λ c : string, dict_has tbl c)) by (by apply Is_true_true).
    cbn [fmap list_fmap snd zip_with]. f_equal. apply IH. lia.
  - rewrite (filter_cons_False (λ p : string * A, dict_has tbl p.1))
      by (by apply Is_true_false).
    rewrite (filter_cons_False (λ c : string, dict_has tbl c)) by (by apply Is_true_false).
    apply IH. lia.
Qed.

(** X6.  The one closure [drop_fields] projects the header and the rows
    alike: on a row that has the length of the header, each field of the
    projected row stands at the position its column has in the projected
    header, which names, in the order of the file, exactly the columns of
    the header that the registry declares.  No [IndexError] comes from the
    removals. *)
Theorem drop_fields_alignment {A} (str_row : list A → string) (tablename : string)
    (tbl : table_spec) (columns : list string) (in_row : list A) :
  dict_get sql_schema tablename = Ok tbl →
  length in_row = length columns →
  ∃ env header out_row,
    make_remove_extra_fields tablename columns = Ok env
    ∧ drop_fields env (str_list repr_str) columns = Ok header
    ∧ drop_fields env str_row in_row = Ok out_row
    ∧ header = filter (λ c, dict_has tbl c) columns
    ∧ zip header out_row = filter (λ p, dict_has tbl p.1) (zip columns in_row)
    ∧ length out_row = length header
    ∧ ∀ c, c ∈ header → c ∈ columns ∧ c ∈ tbl.*1.
Proof.
  intros Htbl Hlen. unfold make_remove_extra_fields. rewrite Htbl. cbn [bind].
  eexists _, (filter (λ c, dict_has tbl c) columns), (declared_fields tbl columns in_row).
  split; [done|]. unfold drop_fields. cbn [orig_num_fields cols].
  rewrite Hlen, Nat.eqb_refl. cbn [negb].
  split_and!.
  - rewrite for_each_pop_extraneous by done. by rewrite declared_fields_header.
  - rewrite for_each_pop_extraneous by done. done.
  - done.
  - by apply zip_declared_fields.
  - by rewrite length_declared_fields.
  - intros c [Hc Hin]%list_elem_of_filter. split; [done|]. by apply dict_has_elem_of.
Qed.

(** *** Rows of the wrong length, from the namespacer to the projector *)

(** X7.  In [handle_file] a row goes through the namespacer and then
    through the projector.  A row of text whose length is not that of the
    header never comes out of the two: it stops with [IndexError] in the
    namespacer when it ends before an identifier column, and with the abort
    error of the projector otherwise, which is always the case of a row
    longer than the header. *)
Theorem wrong_length_row_is_refused (str_row : list value → string)
    (service tablename : string) (columns raw : list string) (env : remove_extra_fields) :
  make_remove_extra_fields tablename columns = Ok env →
  length raw ≠ length columns →
  let labelled := make_add_agency_labels service columns (VStr <$> raw) in
  let projected := bind labelled (drop_fields env str_row) in
  is_ok projected = false
  ∧ ((∃ idx field, columns !! idx = Some field ∧ is_id_column field = true
                   ∧ length raw ≤ idx) →
     projected = Raise IndexError)
  ∧ ((∀ idx field, columns !! idx = Some field → is_id_column field = true →
                   idx < length raw) →
     ∃ out, labelled = Ok out
            ∧ projected
              = Raise (CustomError (wrong_fields_msg tablename columns (str_row out))))
  ∧ (length columns < length raw → is_custom_error projected = true).
Proof.
  intros Henv Hlen. cbv zeta.
  set (labelled := make_add_agency_labels service columns (VStr <$> raw)).
  set (projected := bind labelled (drop_fields env str_row)).
  assert (∀ out, labelled = Ok out →
            projected = Raise (CustomError (wrong_fields_msg tablename columns (str_row out))))
    as Hdrop.
  { intros out Hout. subst projected. rewrite Hout. cbn [bind].
    apply drop_fields_wrong_length; [done|].
    apply add_labels_length in Hout. rewrite Hout, length_fmap. done. }
  assert ((∃ idx field, columns !! idx = Some field ∧ is_id_column field = true
                        ∧ length raw ≤ idx) →
          labelled = Raise IndexError) as Hshort.
  { intros (idx & field & Hf & Hid & Hle). by eapply make_add_agency_labels_short_row. }
  pose proof (make_add_agency_labels_within service columns raw) as Hin.
  fold labelled in Hin.
  assert ((∀ idx field, columns !! idx = Some field → is_id_column field = true →
                        idx < length raw) →
          ∃ out, labelled = Ok out
                 ∧ projected
                   = Raise (CustomError (wrong_fields_msg tablename columns (str_row out))))
    as Hwithin.
  { intros Hall. destruct (Hin Hall) as (out & Hout & _). exists out.
    split; [done | by apply Hdrop]. }
  split_and!.
  - destruct labelled as [out|e] eqn:Hl.
    + by rewrite (Hdrop out eq_refl).
    + done.
  - intros Hex. subst projected. by rewrite (Hshort Hex).
  - done.
  - intros Hlong. destruct Hwithin as (out & _ & ->); [|done].
    intros idx field Hf _. apply lookup_lt_Some in Hf. lia.
Qed.

(** *** The namespacer after the conversion of the times *)

Lemma add_labels_values_loop (service : string) (row : list value) (idxs : list nat) :
  Forall (λ idx, ∃ x, row !! idx = Some (VStr x)) idxs →
  ∀ ret : list value,
    length ret = length row →
    ∃ out,
      for_each idxs
        (λ ret idx,
           let* field := getitem row idx in
           let* stripped := value_strip field in
           Ok (<[idx := VStr (service +:+ ":" +:+ stripped)]> ret))
        ret = Ok out
      ∧ length out = length row
      ∧ ∀ i, out !! i =
             if decide (i ∈ idxs) then label_value service <$> row !! i else ret !! i.
Proof.
  induction 1 as [|idx idxs [x Hx] _ IH]; intros ret Hlen; cbn [for_each].
  - exists ret. split_and!; [done..|]. intros i.
    destruct (decide (i ∈ [])) as [Hin|]; [by apply elem_of_nil in Hin | done].
  - unfold getitem at 1. rewrite Hx. cbn [bind value_strip].
    destruct (IH (<[idx := VStr (service +:+ ":" +:+ strip x)]> ret))
      as (out & Hout & Hl & Hget); [by rewrite length_insert|].
    exists out. split_and!; [done..|]. intros i. rewrite Hget.
    destruct (decide (i = idx)) as [->|Hne].
    + rewrite (decide_True (P := idx ∈ idx :: idxs)) by apply list_elem_of_here.
      destruct (decide (idx ∈ idxs)); [done|].
      rewrite list_lookup_insert_eq by (apply lookup_lt_Some in Hx; lia).
      by rewrite Hx.
    + destruct (decide (i ∈ idxs)) as [Hin|Hnin].
      * by rewrite (decide_True (P := i ∈ idx :: idxs)) by (by apply list_elem_of_further).
      * rewrite (decide_False (P := i ∈ idx :: idxs)).
        -- by rewrite list_lookup_insert_ne.
        -- intros [?|?]%elem_of_cons; done.
Qed.

Lemma map_result_index_elem (col_names cols : list string) :
  ∀ idxs, map_result (index col_names) cols = Ok idxs →
          ∀ i, i ∈ idxs → ∃ c, c ∈ cols ∧ col_names !! i = Some c.
Proof.
  induction cols as [|c cols IH]; intros idxs; simpl.
  - intros [= <-] i Hi. by apply elem_of_nil in Hi.
  - destruct (index col_names c) as [k|] eqn:Hk; simpl; [|done].
    destruct (map_result (index col_names) cols) as [rest|]; simpl; [|done].
    intros [= <-] i [->|Hi]%elem_of_cons.
    + exists c. split; [by left | by apply index_spec].
    + destruct (IH rest eq_refl i Hi) as (c' & ? & ?). exists c'. split; [by right | done].
Qed.

(** X8.  In [handle_file] the rows of stop_times and frequencies reach the
    namespacer after the conversion of their times.  The time columns are
    not identifier columns, so the namespacer finds text in every field it
    rewrites: on a converted row it does not raise, it labels the fields
    under the identifier columns and leaves the others, the converted
    numbers among them, as the conversion made them. *)
Theorem converted_row_is_labelled (service : string) (col_names : list string)
    (fname GTFSdir : string) (time_columns : list string) (idxs : list nat)
    (raw : list string) (converted : list value) :
  map_result (index col_names) time_columns = Ok idxs →
  (∀ c, c ∈ time_columns → is_id_column c = false) →
  length raw = length col_names →
  convert_time_columns col_names fname GTFSdir idxs (VStr <$> raw) = Ok converted →
  ∃ out,
    make_add_agency_labels service col_names converted = Ok out
    ∧ length out = length raw
    ∧ ∀ i field x,
        col_names !! i = Some field → raw !! i = Some x →
        out !! i = if is_id_column field
                   then Some (VStr (sub_non_alnum service +:+ ":" +:+ strip x))
                   else converted !! i.
Proof.
  intros Hidxs Htime Hlen Hconv.
  assert (Forall (λ idx, idx < length raw) idxs) as Hall.
  { rewrite Hlen. by eapply map_result_index. }
  pose proof (convert_time_loop col_names fname GTFSdir raw idxs Hlen Hall
                (VStr <$> raw) (length_fmap _ _)) as Hloop.
  change (for_each idxs _ _) with
    (convert_time_columns col_names fname GTFSdir idxs (VStr <$> raw)) in Hloop.
  rewrite Hconv in Hloop. destruct Hloop as [Hl Hget].
  assert (∀ i field, col_names !! i = Some field → is_id_column field = true →
            converted !! i = VStr <$> raw !! i) as Htext.
  { intros i field Hf Hid. rewrite Hget, decide_False; [by rewrite list_lookup_fmap|].
    intros Hi. destruct (map_result_index_elem _ _ _ Hidxs i Hi) as (c & Hc & Hci).
    rewrite Hf in Hci. injection Hci as ->. rewrite (Htime c Hc) in Hid. done. }
  unfold make_add_agency_labels, add_labels.
  destruct (add_labels_values_loop (sub_non_alnum service) converted
              (elements (labelled_columns col_names))) with (ret := converted)
    as (out & Hout & Hlout & Hgetout); [|done|].
  { apply Forall_forall. intros idx Hidx.
    apply elem_of_elements, labelled_columns_spec in Hidx as (field & Hf & Hid).
    rewrite (Htext idx field Hf Hid).
    destruct (lookup_lt_is_Some_2 raw idx) as [x ->]; [|by exists x].
    apply lookup_lt_Some in Hf. lia. }
  exists out. split_and!; [done | lia |]. intros i field x Hf Hx. rewrite Hgetout.
  destruct (is_id_column field) eqn:Hid.
  - rewrite decide_True by (apply elem_of_elements, labelled_columns_spec; by exists field).
    rewrite (Htext i field Hf Hid), Hx. done.
  - rewrite decide_False; [done|].
    intros (f & Hf' & Hid')%elem_of_elements%labelled_columns_spec.
    rewrite Hf in Hf'. injection Hf' as <-. congruence.
Qed.

(** *** [check_date_fields] *)

(** X9.  On a row of text of the calendar table the check of the dates
    looks at [start_date] and then at [end_date], and on a row of
    calendar_dates at [date]: at the first of them that is not a date it
    raises the abort error, with a message that names the column, the file
    and the value; when all are dates it returns the row as it is.  For any
    other table name it raises [UnboundLocalError]. *)
Theorem check_date_cols_spec (col_names : list string) (tablename fname : string)
    (raw : list string) :
  (tablename = "calendar" →
   ∀ i_start i_end start_date end_date,
     index col_names "start_date" = Ok i_start → index col_names "end_date" = Ok i_end →
     raw !! i_start = Some start_date → raw !! i_end = Some end_date →
     check_date_cols col_names tablename fname (VStr <$> raw)
     = if strptime_Ymd start_date
       then if strptime_Ymd end_date
            then Ok (VStr <$> raw)
            else Raise (CustomError (invalid_date_msg "end_date" fname end_date))
       else Raise (CustomError (invalid_date_msg "start_date" fname start_date)))
  ∧ (tablename = "calendar_dates" →
     ∀ i date,
       index col_names "date" = Ok i → raw !! i = Some date →
       check_date_cols col_names tablename fname (VStr <$> raw)
       = if strptime_Ymd date
         then Ok (VStr <$> raw)
         else Raise (CustomError (invalid_date_msg "date" fname date)))
  ∧ (tablename ≠ "calendar" → tablename ≠ "calendar_dates" →
     check_date_cols col_names tablename fname (VStr <$> raw) = Raise UnboundLocalError).
Proof.
  split_and!.
  - intros -> i_start i_end start_date end_date Hs He Rs Re.
    unfold check_date_cols. cbn [String.eqb Ascii.eqb Bool.eqb bind map_result].
    rewrite Hs, He. cbn [bind for_each]. unfold getitem.
    rewrite !list_lookup_fmap, Rs, Re. cbn [fmap option_fmap option_map bind].
    rewrite (index_spec _ _ _ Hs), (index_spec _ _ _ He).
    destruct (strptime_Ymd start_date); [|done].
    cbn [bind]. by destruct (strptime_Ymd end_date).
  - intros -> i date Hi Ri.
    unfold check_date_cols. cbn [String.eqb Ascii.eqb Bool.eqb bind map_result].
    rewrite Hi. cbn [bind for_each]. unfold getitem.
    rewrite !list_lookup_fmap, Ri. cbn [fmap option_fmap option_map bind].
    rewrite (index_spec _ _ _ Hi).
    by destruct (strptime_Ymd date).
  - intros H1%String.eqb_neq H2%String.eqb_neq. unfold check_date_cols.
    by rewrite H1, H2.
Qed.

(** *** [handle_file] on files without rows *)

Lemma sql_schema_tables (tablename : string) (tbl : table_spec) :
  dict_get sql_schema tablename = Ok tbl →
  tablename ∈ ["stops"; "calendar"; "calendar_dates"; "stop_times"; "trips"; "routes";
               "frequencies"].
Proof.
  intros Hin%dict_get_elem_of.
  by apply (list_elem_of_fmap_2 fst) in Hin.
Qed.

Lemma stripped_records_decoded (f : list (list string)) :
  stripped_records (Ok <$> f)
  = Ok <$> ((λ r : list string, strip <$> r) <$> filter (λ r : list string, 0 < length r) f).
Proof.
  induction f as [|r f IH]; [done|]. cbn [fmap list_fmap stripped_records].
  destruct r as [|x r].
  - rewrite filter_cons_False by (simpl; lia). done.
  - rewrite filter_cons_True by (simpl; lia). cbn [length Nat.ltb Nat.leb]. by rewrite IH.
Qed.

Lemma stripped_records_blank (f : list (list string)) (rest : iter (list string)) :
  Forall (λ r, r = []) f → stripped_records ((Ok <$> f) ++ rest) = stripped_records rest.
Proof. induction 1 as [|r f -> _ IH]; done. Qed.

Lemma py_map_decoded {A B} (g : A → result B) (l : list A) :
  py_map g (Ok <$> l) = g <$> l.
Proof. unfold py_map. induction l as [|x l IH]; [done|]. simpl. by f_equal. Qed.

Lemma filter_nonempty_nil (f : list (list string)) :
  Forall (λ r, r = []) f → filter (λ r : list string, 0 < length r) f = [].
Proof.
  induction 1 as [|r f -> _ IH]; [done|].
  rewrite filter_cons_False by (simpl; lia). done.
Qed.

Lemma required_time_columns (tablename : string) (tbl : table_spec)
    (columns time_columns : list string) :
  (tablename = "stop_times" ∧ time_columns = ["arrival_time"; "departure_time"])
  ∨ (tablename = "frequencies" ∧ time_columns = ["start_time"; "end_time"]) →
  dict_get sql_schema tablename = Ok tbl →
  first_missing_field tbl columns = None →
  ∃ idxs, map_result (index columns) time_columns = Ok idxs.
Proof.
  intros Htable Htbl Hfirst.
  pose proof (proj1 (first_missing_field_None _ _) Hfirst) as Hreq.
  destruct (map_result_index_total columns time_columns) as [Hok _].
  destruct Hok as (idxs & Hidxs & _); [|by exists idxs].
  destruct Htable as [[-> ->] | [-> ->]]; injection Htbl as <-;
    intros c [->|[->|?%elem_of_nil]%elem_of_cons]%elem_of_cons; try done;
    apply (Hreq _ REAL);
    repeat (first [apply list_elem_of_here | apply list_elem_of_further]).
Qed.

(** X10.  [handle_file] on a file that gives no row to import.  A path
    that cannot be opened raises [IOError]; a file with no record, or with
    blank lines only, raises [StopIteration] when its header is asked for,
    not the abort error; a file that cannot be read up to its header raises
    what the reader raises.  A file of a table of the registry that has a
    header and nothing else is imported as no row, under the columns of
    its header that the registry declares, when the header has the
    required columns, and raises the abort error for the first one it
    lacks otherwise. *)
Theorem handle_file_without_rows (fs : file_system) (fname service_label : string) :
  (fs fname = None → handle_file fs fname service_label = Raise IOError)
  ∧ (∀ f, fs fname = Some (Ok <$> f) → Forall (λ r, r = []) f →
          handle_file fs fname service_label = Raise StopIteration)
  ∧ (∀ f e rest, fs fname = Some ((Ok <$> f) ++ Raise e :: rest) → Forall (λ r, r = []) f →
                 handle_file fs fname service_label = Raise e)
  ∧ (∀ f header tbl,
       fs fname = Some (Ok <$> f) →
       filter (λ r : list string, 0 < length r) f = [header] →
       let tablename :=
         basename (if endswith fname ".txt" then drop_last4 fname else fname) in
       let columns := strip <$> (strip <$> header) in
       dict_get sql_schema tablename = Ok tbl →
       handle_file fs fname service_label
       = match first_missing_field tbl columns with
         | Some col =>
             Raise (CustomError (missing_field_msg tablename service_label col))
         | None => Ok (tablename, filter (λ c, dict_has tbl c) columns, [])
         end).
Proof.
  split_and!.
  - intros Hfs. unfold handle_file. by rewrite Hfs.
  - intros f Hfs Hblank. unfold handle_file. rewrite Hfs. cbn [bind].
    by rewrite stripped_records_decoded, (filter_nonempty_nil f Hblank).
  - intros f e rest Hfs Hblank. unfold handle_file. rewrite Hfs. cbn [bind].
    by rewrite (stripped_records_blank f _ Hblank).
  - intros f header tbl Hfs Hrows. cbv zeta. unfold handle_file. rewrite Hfs. cbn [bind].
    rewrite stripped_records_decoded, Hrows. cbn [fmap list_fmap py_map map].
    generalize (basename (if endswith fname ".txt" then drop_last4 fname else fname)).
    intros tablename Htbl.
    rewrite (check_for_required_fields_spec _ _ _ _ Htbl).
    destruct (first_missing_field tbl (strip <$> (strip <$> header))) as [col|] eqn:Hfirst;
      [done|].
    cbn [bind].
    assert (make_remove_extra_fields tablename (strip <$> (strip <$> header))
            = Ok (RemoveExtraFields tablename (strip <$> (strip <$> header))
                    (length (strip <$> (strip <$> header)))
                    (extraneous_columns tbl (strip <$> (strip <$> header))))) as ->.
    { unfold make_remove_extra_fields. by rewrite Htbl. }
    assert (drop_fields
              (RemoveExtraFields tablename (strip <$> (strip <$> header))
                 (length (strip <$> (strip <$> header)))
                 (extraneous_columns tbl (strip <$> (strip <$> header))))
              (str_list repr_str) (strip <$> (strip <$> header))
            = Ok (filter (λ c, dict_has tbl c) (strip <$> (strip <$> header)))) as Hheader.
    { unfold drop_fields. cbn [orig_num_fields cols]. rewrite Nat.eqb_refl. cbn [negb].
      rewrite for_each_pop_extraneous by done. by rewrite declared_fields_header. }
    pose proof (sql_schema_tables _ _ Htbl) as Hname.
    repeat (apply elem_of_cons in Hname as [-> | Hname]);
      [..| by apply elem_of_nil in Hname].
    + cbn [String.eqb Ascii.eqb Bool.eqb list_has existsb orb bind].
      rewrite Hheader. done.
    + cbn [String.eqb Ascii.eqb Bool.eqb list_has existsb orb bind].
      rewrite Hheader. done.
    + cbn [String.eqb Ascii.eqb Bool.eqb list_has existsb orb bind].
      rewrite Hheader. done.
    + destruct (required_time_columns "stop_times" tbl (strip <$> (strip <$> header))
                  ["arrival_time"; "departure_time"]) as [idxs Hidxs]; [by left | done..|].
      cbn [String.eqb Ascii.eqb Bool.eqb]. unfold smarter_convert_times.
      rewrite Hidxs. cbn [bind]. rewrite Hheader. done.
    + cbn [String.eqb Ascii.eqb Bool.eqb list_has existsb orb bind].
      rewrite Hheader. done.
    + cbn [String.eqb Ascii.eqb Bool.eqb list_has existsb orb bind].
      rewrite Hheader. done.
    + destruct (required_time_columns "frequencies" tbl (strip <$> (strip <$> header))
                  ["start_time"; "end_time"]) as [idxs Hidxs]; [by right | done..|].
      cbn [String.eqb Ascii.eqb Bool.eqb]. unfold smarter_convert_times.
      rewrite Hidxs. cbn [bind]. rewrite Hheader. done.
Qed.

(** *** The warning of the consistency checker *)

Lemma make_overlapwarning_empty (pairs : list (string * string)) :
  make_overlapwarning pairs = "" ↔ pairs = [].
Proof.
  split; [|by intros ->]. destruct pairs as [|p pairs]; [done|].
  unfold make_overlapwarning, overlap_intro. intros H. discriminate H.
Qed.

Lemma elem_of_ordered_pairs (l : list string) (sid eid : string) :
  (sid, eid) ∈ ordered_pairs l ↔ sid ∈ l ∧ eid ∈ l.
Proof.
  unfold ordered_pairs. rewrite list_elem_of_In, in_flat_map. split.
  - intros (s & Hs%list_elem_of_In & He%list_elem_of_In).
    apply list_elem_of_fmap in He as (e & [= -> ->] & He). done.
  - intros [Hs He]. exists sid. split; [by apply list_elem_of_In|].
    apply list_elem_of_In, list_elem_of_fmap. by exists eid.
Qed.

(** X11.  On a calendar table the checker returns the empty warning
    exactly when no service id of the table has, by the dates held for it,
    a start date greater than the end date held for a service id of the
    table, itself included.  When no service id is repeated this is: no row
    starts after the end of a row. *)
Theorem no_overlap_warning_iff (ids : list calendar_row) :
  (check_nonoverlapping_dateranges (Some ids) = Ok ""
   ↔ ∀ sid eid, sid ∈ service_ids ids → eid ∈ service_ids ids →
                last_starts_after_end ids (sid, eid) = false)
  ∧ (NoDup (service_ids ids) →
     (check_nonoverlapping_dateranges (Some ids) = Ok ""
      ↔ ∀ r1 r2 : calendar_row, r1 ∈ ids → r2 ∈ ids → str_gt r1.1.2 r2.2 = false)).
Proof.
  assert (check_nonoverlapping_dateranges (Some ids) = Ok ""
          ↔ ∀ sid eid, sid ∈ service_ids ids → eid ∈ service_ids ids →
                       last_starts_after_end ids (sid, eid) = false) as Hiff.
  { rewrite check_nonoverlapping_dateranges_Some. split.
    - intros [= Hempty%make_overlapwarning_empty] sid eid Hs He.
      unfold recorded_pairs in Hempty.
      destruct (filter _ (ordered_pairs (service_ids ids))) as [|p l] eqn:Hf; [|done].
      destruct (last_starts_after_end ids (sid, eid)) eqn:Htest; [|done].
      assert ((sid, eid) ∈ filter (λ p, last_starts_after_end ids p)
                                  (ordered_pairs (service_ids ids))) as Hin.
      { apply list_elem_of_filter. split; [by rewrite Htest|].
        by apply elem_of_ordered_pairs. }
      rewrite Hf in Hin. by apply elem_of_nil in Hin.
    - intros Hall. f_equal. apply make_overlapwarning_empty. unfold recorded_pairs.
      replace (filter (λ p, last_starts_after_end ids p) (ordered_pairs (service_ids ids)))
        with (@nil (string * string)); [done|].
      symmetry. apply elem_of_nil_inv.
      intros [sid eid] [Htest [Hs He]%elem_of_ordered_pairs]%list_elem_of_filter.
      rewrite (Hall sid eid Hs He) in Htest. done. }
  split; [done|]. intros Hnd. rewrite Hiff. split.
  - intros Hall r1 r2 H1 H2.
    specialize (Hall r1.1.1 r2.1.1).
    unfold last_starts_after_end in Hall. cbn [fst snd] in Hall.
    rewrite (last_row_NoDup ids r1 Hnd H1), (last_row_NoDup ids r2 Hnd H2) in Hall.
    apply Hall; unfold service_ids;
      by apply (list_elem_of_fmap_2 (λ id : calendar_row, id.1.1)).
  - intros Hall sid eid Hs He. unfold service_ids in Hs, He.
    apply list_elem_of_fmap in Hs as (r1 & -> & H1).
    apply list_elem_of_fmap in He as (r2 & -> & H2).
    unfold last_starts_after_end. cbn [fst snd].
    rewrite (last_row_NoDup ids r1 Hnd H1), (last_row_NoDup ids r2 Hnd H2).
    by apply Hall.
Qed.

(** *** The validators after the check of the required fields *)

Lemma required_column_index (tablename : string) (tbl : table_spec)
    (columns raw : list string) (col : string) (ty : sql_type) :
  dict_get sql_schema tablename = Ok tbl →
  first_missing_field tbl columns = None →
  (col, (ty, Required)) ∈ tbl →
  length raw = length columns →
  ∃ i x, index columns col = Ok i ∧ columns !! i = Some col ∧ raw !! i = Some x.
Proof.
  intros Htbl Hfirst Hin Hlen.
  pose proof (proj1 (first_missing_field_None _ _) Hfirst _ _ Hin) as Hcol.
  destruct (index_from_total col columns 0) as [Hok _].
  destruct (Hok Hcol) as [i Hi]. pose proof (index_spec _ _ _ Hi) as Hci.
  destruct (lookup_lt_is_Some_2 raw i) as [x Hx].
  { apply lookup_lt_Some in Hci. lia. }
  by exists i, x.
Qed.

(** X12.  In [handle_file] the check of the required fields comes before
    the validators of the rows.  When it has passed, a row of text that has
    the length of the header gets from the check of the coordinates (stops)
    and from the check of the dates (calendar, calendar_dates) either
    itself, unchanged, or the abort error: no [ValueError] for a column
    that is not found, no [IndexError]. *)
Theorem required_fields_then_row_checks (tablename dataset fname : string)
    (columns raw : list string) :
  check_for_required_fields tablename columns dataset = Ok tt →
  length raw = length columns →
  (tablename = "stops" →
   check_latlon_cols columns fname (VStr <$> raw) = Ok (VStr <$> raw)
   ∨ ∃ msg, check_latlon_cols columns fname (VStr <$> raw) = Raise (CustomError msg))
  ∧ (tablename = "calendar" ∨ tablename = "calendar_dates" →
     check_date_cols columns tablename fname (VStr <$> raw) = Ok (VStr <$> raw)
     ∨ ∃ msg, check_date_cols columns tablename fname (VStr <$> raw)
              = Raise (CustomError msg)).
Proof.
  intros Hcheck Hlen. split.
  - intros ->.
    erewrite check_for_required_fields_spec in Hcheck by reflexivity.
    match type of Hcheck with
    | match ?first with _ => _ end = _ => destruct first eqn:Hfirst; [done|]
    end.
    destruct (required_column_index "stops" _ columns raw "stop_id" TEXT eq_refl Hfirst)
      as (i_id & stop_id & Hid & _ & Rid); [repeat constructor | done |].
    destruct (required_column_index "stops" _ columns raw "stop_lat" REAL eq_refl Hfirst)
      as (i_lat & stop_lat & Hlat & _ & Rlat); [repeat constructor | done |].
    destruct (required_column_index "stops" _ columns raw "stop_lon" REAL eq_refl Hfirst)
      as (i_lon & stop_lon & Hlon & _ & Rlon); [repeat constructor | done |].
    unfold check_latlon_cols, getitem. rewrite Hid, Hlat, Hlon. cbn [bind].
    rewrite !list_lookup_fmap, Rid, Rlat, Rlon. cbn [fmap option_fmap option_map bind].
    cbn [value_float].
    destruct (float stop_lat) as [x|]; [|right; by eexists].
    destruct (float stop_lon) as [y|]; [|right; by eexists].
    destruct (negb _); [right; by eexists|].
    destruct (negb _); [right; by eexists | by left].
  - intros [-> | ->].
    + erewrite check_for_required_fields_spec in Hcheck by reflexivity.
      match type of Hcheck with
      | match ?first with _ => _ end = _ => destruct first eqn:Hfirst; [done|]
      end.
      destruct (required_column_index "calendar" _ columns raw "start_date" TEXT eq_refl
                  Hfirst) as (i_s & d_s & Hs & Cs & Rs); [repeat constructor | done |].
      destruct (required_column_index "calendar" _ columns raw "end_date" TEXT eq_refl
                  Hfirst) as (i_e & d_e & He & Ce & Re); [repeat constructor | done |].
      unfold check_date_cols. cbn [String.eqb Ascii.eqb Bool.eqb bind map_result].
      rewrite Hs, He. cbn [bind for_each]. unfold getitem.
      rewrite !list_lookup_fmap, Rs, Re, Cs, Ce. cbn [fmap option_fmap option_map bind].
      destruct (strptime_Ymd d_s); [|right; by eexists].
      cbn [bind]. destruct (strptime_Ymd d_e); [by left | right; by eexists].
    + erewrite check_for_required_fields_spec in Hcheck by reflexivity.
      match type of Hcheck with
      | match ?first with _ => _ end = _ => destruct first eqn:Hfirst; [done|]
      end.
      destruct (required_column_index "calendar_dates" _ columns raw "date" TEXT eq_refl
                  Hfirst) as (i & d & Hi & Ci & Ri); [repeat constructor | done |].
      unfold check_date_cols. cbn [String.eqb Ascii.eqb Bool.eqb bind map_result].
      rewrite Hi. cbn [bind for_each]. unfold getitem.
      rewrite !list_lookup_fmap, Ri, Ci. cbn [fmap option_fmap option_map bind].
      destruct (strptime_Ymd d); [by left | right; by eexists].
Qed.

(** *** The comparison of the dates *)

Lemma read_digits_value (s : string) :
  ∀ acc v, read_digits s acc = Some v →
    ∃ w, (0 ≤ w < 10 ^ Z.of_nat (String.length s))%Z
         ∧ v = (acc * 10 ^ Z.of_nat (String.length s) + w)%Z.
Proof.
  induction s as [|c s IH]; intros acc v; cbn [read_digits String.length].
  - intros [= <-]. exists 0%Z. simpl. lia.
  - destruct (is_digit c) eqn:Hc; [|done].
    intros (w & Hw & ->)%IH.
    unfold is_digit in Hc. apply andb_true_iff in Hc as [H1%Nat.leb_le H2%Nat.leb_le].
    exists ((Z.of_nat (nat_of_ascii c - 48)) * 10 ^ Z.of_nat (String.length s) + w)%Z.
    rewrite Nat2Z.inj_succ, Z.pow_succ_r by lia. split; [nia | lia].
Qed.

Lemma ascii_compare_nat (c d : ascii) :
  Ascii.compare c d = Nat.compare (nat_of_ascii c) (nat_of_ascii d).
Proof.
  unfold Ascii.compare, nat_of_ascii. by rewrite N2Nat.inj_compare.
Qed.

Lemma compare_digits (a : string) :
  ∀ b acc x y,
    String.length a = String.length b →
    read_digits a acc = Some x → read_digits b acc = Some y →
    String.compare a b = Z.compare x y.
Proof.
  induction a as [|c a IH]; intros [|d b] acc x y Hlen; cbn [String.length] in Hlen;
    try lia.
  - simpl. intros [= <-] [= <-]. by rewrite Z.compare_refl.
  - cbn [read_digits String.compare].
    destruct (is_digit c) eqn:Hc; [|done]. destruct (is_digit d) eqn:Hd; [|done].
    intros Hx Hy. rewrite ascii_compare_nat.
    unfold is_digit in Hc, Hd.
    apply andb_true_iff in Hc as [Hc1%Nat.leb_le Hc2%Nat.leb_le].
    apply andb_true_iff in Hd as [Hd1%Nat.leb_le Hd2%Nat.leb_le].
    destruct (Nat.compare_spec (nat_of_ascii c) (nat_of_ascii d)) as [Heq|Hlt|Hgt].
    + rewrite Heq in Hx. eapply IH; [lia | done..].
    + apply read_digits_value in Hx as (wx & Hwx & ->).
      apply read_digits_value in Hy as (wy & Hwy & ->).
      replace (String.length b) with (String.length a) in * by lia.
      symmetry. apply Z.compare_lt_iff. nia.
    + apply read_digits_value in Hx as (wx & Hwx & ->).
      apply read_digits_value in Hy as (wy & Hwy & ->).
      replace (String.length b) with (String.length a) in * by lia.
      symmetry. apply Z.compare_gt_iff. nia.
Qed.

(** X13.  The test of the checker compares the held dates as strings.  For
    a start date and an end date written with the same number of decimal
    digits, as two dates of eight digits are, the test holds exactly when
    the number the start date writes is greater than the number the end
    date writes. *)
Theorem starts_after_end_digits (startdatedict enddatedict : gmap string string)
    (sid eid start_date end_date : string) (x y : Z) :
  startdatedict !! sid = Some start_date →
  enddatedict !! eid = Some end_date →
  String.length start_date = String.length end_date →
  read_digits start_date 0 = Some x →
  read_digits end_date 0 = Some y →
  starts_after_end startdatedict enddatedict (sid, eid) = true ↔ (y < x)%Z.
Proof.
  intros Hs He Hlen Hx Hy. unfold starts_after_end. cbn [fst snd]. rewrite Hs, He.
  unfold str_gt, String.ltb.
  rewrite (compare_digits end_date start_date 0 y x) by done.
  destruct (Z.compare_spec y x); split; try done; lia.
Qed.

(** *** The namespacer applied twice *)

Lemma leading_space_None (b : ascii) (s : string) :
  is_alnum b = true ∨ b = ":"%char → leading_space (String b s) = None.
Proof.
  intros Hb. destruct (leading_space (String b s)) as [w|] eqn:Hw; [|done].
  apply leading_space_Some in Hw as [Hin [t Ht]]. unfold spaces in Hin.
  repeat (apply elem_of_cons in Hin as [-> | Hin]);
    try (injection Ht as -> _; by destruct Hb).
  by apply elem_of_nil in Hin.
Qed.

Lemma lstrip_kept (b : ascii) (s : string) :
  is_alnum b = true ∨ b = ":"%char → lstrip (String b s) = String b s.
Proof. intros Hb. unfold lstrip. cbn [lstrip_from]. by rewrite leading_space_None. Qed.

Lemma append_eq_append (a y : string) :
  ∀ p t, a +:+ y = p +:+ t →
         (∃ a2, a = p +:+ a2 ∧ t = a2 +:+ y) ∨ (∃ p2, p = a +:+ p2 ∧ y = p2 +:+ t).
Proof.
  induction a as [|c a IH]; intros p t Heq.
  - right. by exists p.
  - destruct p as [|d p].
    + left. by exists (String c a).
    + injection Heq as -> Heq. destruct (IH p t Heq) as [(a2 & -> & ->) | (p2 & -> & ->)].
      * left. by exists a2.
      * right. by exists p2.
Qed.

Lemma label_suffix (label : string) :
  Forall (λ c, is_alnum c = true) (list_ascii_of_string label) →
  ∀ p b rest, label +:+ ":" = p +:+ String b rest → is_alnum b = true ∨ b = ":"%char.
Proof.
  induction label as [|c label IH]; intros Hall p b rest Heq.
  - destruct p as [|d p]; [injection Heq as <- _; by right|].
    injection Heq as _ Heq. by destruct p.
  - apply Forall_cons in Hall as [Hc Hall]. destruct p as [|d p].
    + injection Heq as <- _. by left.
    + injection Heq as _ Heq. by eapply IH.
Qed.

(** A labelled field has no whitespace around it. *)
Lemma label_strip (label x : string) :
  Forall (λ c, is_alnum c = true) (list_ascii_of_string label) →
  strip (label +:+ ":" +:+ strip x) = label +:+ ":" +:+ strip x.
Proof.
  intros Hall.
  assert (∀ p t, label +:+ ":" +:+ strip x = p +:+ t → t ≠ "" → lstrip t ≠ "") as Hkept.
  { intros p t Heq Ht. rewrite <- append_assoc in Heq.
    apply append_eq_append in Heq as [(a2 & Ha & ->) | (p2 & -> & Hx)].
    - destruct a2 as [|b a2].
      + by apply (rstrip_kept (lstrip x) "").
      + change (String b a2 +:+ strip x) with (String b (a2 +:+ strip x)).
        rewrite lstrip_kept; [done|]. by eapply label_suffix.
    - by apply (rstrip_kept (lstrip x) p2). }
  unfold strip at 1.
  assert (lstrip (label +:+ ":" +:+ strip x) = label +:+ ":" +:+ strip x) as ->.
  { destruct label as [|c label].
    - by apply lstrip_kept; right.
    - apply lstrip_kept. apply Forall_cons in Hall as [Hc _]. by left. }
  by apply rstrip_fixed.
Qed.

(** X14.  The function built by [make_add_agency_labels] is not
    idempotent: applied to its own result on a row of text, it puts the
    label once more in front of every field under an identifier column,
    and leaves the other fields as they are. *)
Theorem make_add_agency_labels_twice (service : string) (columns raw : list string) :
  length raw = length columns →
  ∃ once twice,
    make_add_agency_labels service columns (VStr <$> raw) = Ok once
    ∧ make_add_agency_labels service columns once = Ok twice
    ∧ ∀ i field x,
        columns !! i = Some field → raw !! i = Some x →
        twice !! i
        = Some (VStr (if is_id_column field
                      then sub_non_alnum service +:+ ":" +:+
                           sub_non_alnum service +:+ ":" +:+ strip x
                      else x)).
Proof.
  intros Hlen. unfold make_add_agency_labels, add_labels.
  set (label := sub_non_alnum service).
  set (idxs := elements (labelled_columns columns)).
  assert (Forall (λ idx, idx < length raw) idxs) as Hin.
  { apply Forall_forall. intros idx Hidx.
    apply elem_of_elements, labelled_columns_spec in Hidx as (field & Hf & _).
    apply lookup_lt_Some in Hf. lia. }
  destruct (add_labels_loop label raw idxs (VStr <$> raw)) as (once & Honce & Hl1 & Hget1);
    [by rewrite length_fmap | done |].
  destruct (add_labels_values_loop label once idxs) with (ret := once)
    as (twice & Htwice & Hl2 & Hget2); [|done|].
  { apply Forall_forall. intros idx Hidx. rewrite Hget1, decide_True by done.
    rewrite Forall_forall in Hin.
    destruct (lookup_lt_is_Some_2 raw idx (Hin idx Hidx)) as [x ->]. by eexists. }
  exists once, twice. split_and!; [done..|].
  intros i field x Hf Hx. rewrite Hget2, Hget1.
  destruct (is_id_column field) eqn:Hid.
  - rewrite !decide_True
      by (apply elem_of_elements, labelled_columns_spec; by exists field).
    rewrite Hx. cbn [fmap option_fmap option_map label_value].
    rewrite label_strip; [done | apply sub_non_alnum_alnum].
  - rewrite !decide_False; [by rewrite list_lookup_fmap, Hx|..];
      intros (f & Hf' & Hid')%elem_of_elements%labelled_columns_spec;
      rewrite Hf in Hf'; injection Hf' as <-; congruence.
Qed.

(** *** The import of a table that has no validator *)

Lemma make_add_agency_labels_row (service : string) (columns raw : list string) :
  length raw = length columns →
  make_add_agency_labels service columns (VStr <$> raw)
  = Ok (labelled_row (sub_non_alnum service) columns raw).
Proof.
  intros Hlen. unfold make_add_agency_labels, add_labels.
  destruct (add_labels_loop (sub_non_alnum service) raw
              (elements (labelled_columns columns)) (VStr <$> raw))
    as (out & -> & Hl & Hget).
  { by rewrite length_fmap. }
  { apply Forall_forall. intros idx Hidx.
    apply elem_of_elements, labelled_columns_spec in Hidx as (field & Hf & _).
    apply lookup_lt_Some in Hf. lia. }
  f_equal. apply list_eq. intros i. rewrite Hget. unfold labelled_row.
  rewrite lookup_zip_with.
  destruct (columns !! i) as [field|] eqn:Hf; cbn [mbind option_bind].
  - destruct (lookup_lt_is_Some_2 raw i) as [x Hx].
    { apply lookup_lt_Some in Hf. lia. }
    rewrite list_lookup_fmap, Hx. cbn [fmap option_fmap option_map mbind option_bind].
    destruct (is_id_column field) eqn:Hid.
    + rewrite decide_True;
        [done | apply elem_of_elements, labelled_columns_spec; by exists field].
    + rewrite decide_False; [done|].
      intros (f & Hf' & Hid')%elem_of_elements%labelled_columns_spec. congruence.
  - rewrite decide_False.
    + apply lookup_ge_None. rewrite length_fmap. apply lookup_ge_None in Hf. lia.
    + intros (f & Hf' & _)%elem_of_elements%labelled_columns_spec. congruence.
Qed.

Lemma length_labelled_row (label : string) (columns raw : list string) :
  length raw = length columns → length (labelled_row label columns raw) = length columns.
Proof. intros Hlen. unfold labelled_row. rewrite length_zip_with. lia. Qed.

Lemma consume_labelled_rows (service tablename : string) (tbl : table_spec)
    (columns : list string) (env : remove_extra_fields) (rows : list (list string)) :
  make_remove_extra_fields tablename columns = Ok env →
  dict_get sql_schema tablename = Ok tbl →
  Forall (λ r, length r = length columns) rows →
  consume (py_map (drop_fields env (str_tuple repr_value))
             (py_map (make_add_agency_labels service columns)
                ((λ r : list string, Ok (VStr <$> r)) <$> rows)))
  = Ok ((λ r, declared_fields tbl columns (labelled_row (sub_non_alnum service) columns r))
          <$> rows).
Proof.
  intros Henv Htbl. unfold make_remove_extra_fields in Henv. rewrite Htbl in Henv.
  injection Henv as <-.
  induction 1 as [|r rows Hr _ IH]; [done|].
  cbn [fmap list_fmap py_map map bind consume].
  rewrite (make_add_agency_labels_row service columns r Hr). cbn [bind].
  unfold drop_fields at 1. cbn [orig_num_fields cols].
  rewrite length_labelled_row by done. rewrite Nat.eqb_refl. cbn [negb].
  rewrite for_each_pop_extraneous by (by apply length_labelled_row).
  unfold py_map in IH. cbn [fmap list_fmap] in IH. rewrite IH. done.
Qed.

(** X15.  The import of trips.txt or of routes.txt, the two tables whose
    rows no validator reads.  When the file can be decoded, the header has
    the required columns and every row that is not blank has the length of
    the header, the file is imported whole: under the columns of the header
    that the registry declares, one row per row of the file, blank lines
    left out, each with its fields stripped, labelled under the identifier
    columns and reduced to the declared columns. *)
Theorem handle_file_plain_table (fs : file_system) (fname service_label tablename : string)
    (tbl : table_spec) (f : list (list string)) (header : list string)
    (rows : list (list string)) :
  tablename = "trips" ∨ tablename = "routes" →
  basename (if endswith fname ".txt" then drop_last4 fname else fname) = tablename →
  dict_get sql_schema tablename = Ok tbl →
  fs fname = Some (Ok <$> f) →
  filter (λ r : list string, 0 < length r) f = header :: rows →
  first_missing_field tbl (strip <$> (strip <$> header)) = None →
  Forall (λ r, length r = length header) rows →
  let columns := strip <$> (strip <$> header) in
  handle_file fs fname service_label
  = Ok (tablename,
        filter (λ c, dict_has tbl c) columns,
        (λ r, declared_fields tbl columns
                (labelled_row (sub_non_alnum service_label) columns (strip <$> r)))
          <$> rows).
Proof.
  intros Hname Hbase Htbl Hfs Hrows Hfirst Hlen. cbv zeta.
  unfold handle_file. rewrite Hfs, Hbase. cbn [bind].
  rewrite stripped_records_decoded, Hrows.
  cbn [fmap list_fmap]. rewrite py_map_decoded.
  set (columns := strip <$> (strip <$> header)).
  assert (check_for_required_fields tablename columns service_label = Ok tt) as ->.
  { rewrite (check_for_required_fields_spec _ _ _ _ Htbl).
    unfold columns. by rewrite Hfirst. }
  cbn [bind].
  assert (∃ env, make_remove_extra_fields tablename columns = Ok env) as [env Henv].
  { unfold make_remove_extra_fields. rewrite Htbl. by eexists. }
  assert (drop_fields env (str_list repr_str) columns
          = Ok (filter (λ c, dict_has tbl c) columns)) as Hheader.
  { unfold make_remove_extra_fields in Henv. rewrite Htbl in Henv. injection Henv as <-.
    unfold drop_fields. cbn [orig_num_fields cols]. rewrite Nat.eqb_refl. cbn [negb].
    rewrite for_each_pop_extraneous by done. by rewrite declared_fields_header. }
  assert (consume
            (py_map (drop_fields env (str_tuple repr_value))
               (py_map (make_add_agency_labels service_label columns)
                  ((λ r : list string, Ok (VStr <$> r))
                     <$> ((λ r : list string, strip <$> r) <$> rows))))
          = Ok ((λ r, declared_fields tbl columns
                        (labelled_row (sub_non_alnum service_label) columns (strip <$> r)))
                  <$> rows)) as Hconsume.
  { assert (Forall (λ r, length r = length columns)
                   ((λ r : list string, strip <$> r) <$> rows)) as Hstripped.
    { apply Forall_fmap. eapply Forall_impl; [exact Hlen|].
      intros r Hr. simpl. unfold columns. by rewrite !length_fmap. }
    rewrite (consume_labelled_rows service_label tablename tbl columns env _ Henv Htbl
               Hstripped).
    f_equal. by rewrite <- list_fmap_compose. }
  destruct Hname as [-> | ->];
    cbn [String.eqb Ascii.eqb Bool.eqb list_has existsb orb bind];
    rewrite Henv; cbn [bind]; rewrite Hheader; cbn [bind];
    rewrite Hconsume; done.
Qed.

End Sqlize.

(** ** Examples

    The collaborators are the stand-ins: floats in thousandths, the time
    parser of the spec, paths joined by a slash, the ASCII digits and the
    [repr] of printable text. *)

Abbreviation text := (VStr Z).

Example labels_of_a_trips_row :
  make_add_agency_labels Z "cta" ["route_id"; "service_id"; "trip_id"; "direction_id"]
    (text <$> ["R1"; " wk "; "T9"; "0"])
  = Ok (text <$> ["cta:R1"; "cta:wk"; "cta:T9"; "0"]).
Proof. vm_compute. reflexivity. Qed.

Example times_of_a_stop_times_row :
  convert_time_columns Z milli_float hms_str2sec slash_join ascii_decimal
    ["trip_id"; "arrival_time"; "departure_time"] "stop_times.txt" "cta" [1; 2]
    (text <$> ["T9"; "08:05:00"; "25:00:00"])
  = Ok [text "T9"; VInt Z 29100; VInt Z 90000].
Proof. vm_compute. reflexivity. Qed.

Example disjoint_services_are_reported :
  check_nonoverlapping_dateranges repr_printable
    (Some [("A", "20170101", "20170601"); ("B", "20170701", "20171231")])
  = Ok (overlap_intro +:+ "[['B', 'A']]").
Proof. vm_compute. reflexivity. Qed.

Example overlapping_services_are_not_reported :
  check_nonoverlapping_dateranges repr_printable
    (Some [("A", "20170101", "20170801"); ("B", "20170701", "20171231")])
  = Ok "".
Proof. vm_compute. reflexivity. Qed.

Example missing_both_calendars :
  missing_files slash_join
    (λ path, if list_has ["cta/stops.txt"; "cta/stop_times.txt"; "cta/trips.txt";
                          "cta/routes.txt"] path
             then Some [] else None)
    "cta"
  = ["calendar.txt or calendar_dates.txt"].
Proof. vm_compute. reflexivity. Qed.

(** A no-break space, U+00A0, and an ideographic space, U+3000, are
    whitespace; a zero width space, U+200B, is not. *)
Example strip_unicode_whitespace :
  strip (utf8 160 +:+ "7" +:+ utf8 12288 +:+ nl) = "7"
  ∧ strip (utf8 8203 +:+ " 7") = utf8 8203 +:+ " 7".
Proof. split; vm_compute; reflexivity. Qed.

Example labels_of_a_padded_field :
  make_add_agency_labels Z "cta" ["trip_id"] [text (utf8 160 +:+ "7" +:+ utf8 160)]
  = Ok [text "cta:7"].
Proof. vm_compute. reflexivity. Qed.

(** A time written with Arabic-Indic digits has eight characters, and
    the pattern accepts it when these are digits for [\d]. *)
Example arabic_indic_time :
  let time := utf8 1633 +:+ utf8 1634 +:+ ":" +:+ utf8 1635 +:+ utf8 1636 +:+ ":"
              +:+ utf8 1637 +:+ utf8 1638 in
  chars time
  = [utf8 1633; utf8 1634; ":"; utf8 1635; utf8 1636; ":"; utf8 1637; utf8 1638]
  ∧ check_time_str two_scripts_decimal time = true
  ∧ check_time_str ascii_decimal time = false.
Proof. repeat split; vm_compute; reflexivity. Qed.

Example undecodable_stops :
  missing_files slash_join undecodable_stops_fs "cta" = []
  ∧ handle_file Z milli_float milli_lit Z.leb milli_repr hms_str2sec eight_digits
      slash_join slash_basename ascii_decimal repr_printable undecodable_stops_fs
      "cta/stops.txt" "cta"
    = Raise UnicodeDecodeError
  ∧ handle_agency Z milli_float milli_lit Z.leb milli_repr hms_str2sec eight_digits
      slash_join slash_basename slash_basename ascii_decimal repr_printable
      undecodable_stops_fs "cta"
    = Raise (CustomError
               "Unicode decoding of GTFS dataset cta failed. Please ensure that your GTFS files have the proper utf-8 encoding required by the GTFS specification.").
Proof. repeat split; vm_compute; reflexivity. Qed.

(** C1, on a row of stop_times. *)
Lemma make_add_agency_labels_spec_witness :
  length [" 7 "; "08:00:00"; "1"] = length ["trip_id"; "arrival_time"; "direction_id"]
  ∧ ∃ out,
      make_add_agency_labels Z "c-t a" ["trip_id"; "arrival_time"; "direction_id"]
        (text <$> [" 7 "; "08:00:00"; "1"]) = Ok out
      ∧ out !! 0 = Some (text "cta:7")
      ∧ out !! 1 = Some (text "08:00:00")
      ∧ out !! 2 = Some (text "1").
Proof.
  split; [reflexivity|].
  destruct (make_add_agency_labels_spec Z "c-t a"
              ["trip_id"; "arrival_time"; "direction_id"] [" 7 "; "08:00:00"; "1"] eq_refl)
    as (out & Hout & _ & Hid & Hother & _).
  exists out. split; [exact Hout|]. split; [|split].
  - apply (Hid 0 "trip_id" " 7 "); [reflexivity | reflexivity | | discriminate].
    exists "trip". reflexivity.
  - apply (Hother 1 "arrival_time" "08:00:00"); [reflexivity | reflexivity |].
    intros [Hsuffix _]. apply endswith_spec in Hsuffix. discriminate.
  - apply (Hother 2 "direction_id" "1"); [reflexivity | reflexivity |].
    intros [_ Hne]. apply Hne. reflexivity.
Defined.

(** C2: a stops.txt with the four required columns and one column that is
    not in the registry.  The projected row has four fields, while the
    registry declares ten columns for the table. *)
Lemma drop_fields_below_schema_count :
  ∃ env out tbl,
    make_remove_extra_fields "stops"
      ["stop_id"; "stop_name"; "wheelchair_boarding"; "stop_lat"; "stop_lon"] = Ok env
    ∧ drop_fields repr_printable env (str_tuple repr_printable) ["S1"; "Main St"; "1"; "40.0"; "-75.0"] = Ok out
    ∧ dict_get sql_schema "stops" = Ok tbl
    ∧ out = ["S1"; "Main St"; "40.0"; "-75.0"]
    ∧ length out = 4
    ∧ length tbl = 10.
Proof. do 3 eexists. repeat split; vm_compute; reflexivity. Qed.

Lemma drop_fields_count_witness :
  length ["S1"; "Main St"; "1"; "40.0"; "-75.0"]
  = length ["stop_id"; "stop_name"; "wheelchair_boarding"; "stop_lat"; "stop_lon"]
  ∧ ∃ env out,
      make_remove_extra_fields "stops"
        ["stop_id"; "stop_name"; "wheelchair_boarding"; "stop_lat"; "stop_lon"] = Ok env
      ∧ drop_fields repr_printable env (str_tuple repr_printable) ["S1"; "Main St"; "1"; "40.0"; "-75.0"] = Ok out
      ∧ length out = 4.
Proof.
  split; [reflexivity|].
  edestruct (drop_fields_count repr_printable (str_tuple repr_printable) "stops" _
               ["stop_id"; "stop_name"; "wheelchair_boarding"; "stop_lat"; "stop_lon"]
               ["S1"; "Main St"; "1"; "40.0"; "-75.0"] eq_refl eq_refl)
    as (env & out & Henv & Hout & _ & Hlen & _).
  exists env, out. split; [exact Henv|]. split; [exact Hout | exact Hlen].
Defined.

(** C5: a time of the shape and a number of seconds. *)
Lemma convert_time_columns_spec_witness :
  map_result (index ["trip_id"; "arrival_time"; "departure_time"; "stop_id"])
    ["arrival_time"; "departure_time"] = Ok [1; 2]
  ∧ length ["T9"; "08:05:00"; " 100 "; "S1"]
    = length ["trip_id"; "arrival_time"; "departure_time"; "stop_id"]
  ∧ ∃ out,
      convert_time_columns Z milli_float hms_str2sec slash_join ascii_decimal
        ["trip_id"; "arrival_time"; "departure_time"; "stop_id"] "stop_times.txt" "cta"
        [1; 2] (text <$> ["T9"; "08:05:00"; " 100 "; "S1"]) = Ok out
      ∧ out !! 1 = Some (VInt Z 29100)
      ∧ out !! 2 = Some (VFloat Z 100000%Z).
Proof.
  split; [reflexivity|]. split; [reflexivity|].
  assert (hms_shape ascii_decimal (strip "08:05:00")) as Hshape
    by (apply check_time_str_strip; reflexivity).
  assert (¬ hms_shape ascii_decimal (strip " 100 ")) as Hnot
    by (intros H%check_time_str_strip; discriminate).
  destruct (convert_time_columns_spec Z milli_float hms_str2sec slash_join ascii_decimal
              ["trip_id"; "arrival_time"; "departure_time"; "stop_id"]
              "stop_times.txt" "cta" ["arrival_time"; "departure_time"] [1; 2]
              ["T9"; "08:05:00"; " 100 "; "S1"] eq_refl eq_refl) as (Hok & _ & _).
  destruct Hok as (out & Hout & _ & Htime & Hnumber & _).
  { intros idx x Hin Hx.
    apply elem_of_cons in Hin as [-> | Hin]; [injection Hx as <-; by left|].
    apply list_elem_of_singleton in Hin as ->. injection Hx as <-.
    right. split; [discriminate | by eexists]. }
  exists out. split; [exact Hout|]. split.
  - apply (Htime 1 "08:05:00"); [apply list_elem_of_here | reflexivity | exact Hshape].
  - apply (Hnumber 2 " 100 " 100000%Z);
      [apply list_elem_of_further, list_elem_of_here | reflexivity | exact Hnot | reflexivity].
Defined.

(** C6: a latitude of 95.0 is refused, one of 40.0 passes. *)
Lemma check_latlon_cols_spec_witness :
  (∃ msg,
     check_latlon_cols Z milli_float milli_lit Z.leb milli_repr
       ["stop_id"; "stop_name"; "stop_lat"; "stop_lon"] "stops.txt"
       (text <$> ["S1"; "Main St"; "95.0"; "-75.0"]) = Raise (CustomError msg))
  ∧ check_latlon_cols Z milli_float milli_lit Z.leb milli_repr
      ["stop_id"; "stop_name"; "stop_lat"; "stop_lon"] "stops.txt"
      (text <$> ["S1"; "Main St"; "40.0"; "-75.0"])
    = Ok (text <$> ["S1"; "Main St"; "40.0"; "-75.0"]).
Proof.
  split.
  - apply (check_latlon_cols_spec Z milli_float milli_lit Z.leb milli_repr
             ["stop_id"; "stop_name"; "stop_lat"; "stop_lon"] "stops.txt"
             ["S1"; "Main St"; "95.0"; "-75.0"] 0 2 3 "S1" "95.0" "-75.0"
             eq_refl eq_refl eq_refl eq_refl eq_refl eq_refl).
    right. right. left. exists 95000%Z. split; reflexivity.
  - apply (check_latlon_cols_spec Z milli_float milli_lit Z.leb milli_repr
             ["stop_id"; "stop_name"; "stop_lat"; "stop_lon"] "stops.txt"
             ["S1"; "Main St"; "40.0"; "-75.0"] 0 2 3 "S1" "40.0" "-75.0"
             eq_refl eq_refl eq_refl eq_refl eq_refl eq_refl).
    intros [H | [H | [(x & Hx & Hr) | (y & Hy & Hr)]]]; try discriminate.
    + injection Hx as <-. discriminate.
    + injection Hy as <-. discriminate.
Defined.

(** C7, with the base name of a path. *)
Lemma handle_file_short_row_witness :
  slash_basename "trips" = "trips"
  ∧ handle_file Z milli_float milli_lit Z.leb milli_repr hms_str2sec eight_digits
      slash_join slash_basename ascii_decimal repr_printable short_row_fs "trips.txt" "cta"
    = Raise IndexError.
Proof.
  split; [reflexivity|].
  apply (handle_file_short_row Z milli_float milli_lit Z.leb milli_repr hms_str2sec
           eight_digits slash_join slash_basename ascii_decimal repr_printable).
  reflexivity.
Defined.

(** C8: a dataset that has its seven files, with a stops.txt whose header
    lacks the column stop_id.  No required file is missing, and the loader
    raises the abort error. *)
Lemma handle_agency_aborts_with_no_file_missing :
  missing_files slash_join stops_without_id_fs "cta" = []
  ∧ handle_agency Z milli_float milli_lit Z.leb milli_repr hms_str2sec eight_digits
      slash_join slash_basename slash_basename ascii_decimal repr_printable
      stops_without_id_fs "cta"
    = Raise (CustomError
               "GTFS file stops.txt in dataset cta is missing required field 'stop_id'. Failed to SQLize GTFS data").
Proof. split; vm_compute; reflexivity. Qed.

(** C9: a stops.txt whose header lacks the four required columns.  The
    message names the first of them and none of the other three. *)
Lemma check_for_required_fields_names_one_field :
  ∃ tbl msg,
    dict_get sql_schema "stops" = Ok tbl
    ∧ (filter (λ entry, is_required entry.2.2 && negb (list_has ["stop_code"] entry.1)) tbl).*1
      = ["stop_id"; "stop_name"; "stop_lat"; "stop_lon"]
    ∧ check_for_required_fields "stops" ["stop_code"] "cta" = Raise (CustomError msg)
    ∧ contains msg "stop_id" = true
    ∧ contains msg "stop_name" = false
    ∧ contains msg "stop_lat" = false
    ∧ contains msg "stop_lon" = false.
Proof. do 2 eexists. repeat split; vm_compute; reflexivity. Qed.

Lemma structural_failure_messages_witness :
  (∃ tbl, dict_get sql_schema "stops" = Ok tbl)
  ∧ check_for_required_fields "stops" ["stop_code"; "stop_name"] "cta"
    = Raise (CustomError
               "GTFS file stops.txt in dataset cta is missing required field 'stop_id'. Failed to SQLize GTFS data")
  ∧ ∃ env,
      make_remove_extra_fields "stops" ["stop_code"; "stop_name"] = Ok env
      ∧ is_custom_error (drop_fields repr_printable env (str_tuple repr_printable) ["S1"]) = true.
Proof.
  split; [eexists; reflexivity|].
  edestruct (structural_failure_messages Z milli_float milli_lit Z.leb milli_repr
               hms_str2sec eight_digits slash_join slash_basename slash_basename
               ascii_decimal repr_printable (str_tuple repr_printable) short_row_fs "cta" "stops" "cta" _
               ["stop_code"; "stop_name"] ["S1"] eq_refl) as (_ & Hcols & Hrow).
  split; [exact Hcols|].
  destruct Hrow as (env & Henv & Hdrop); [discriminate|].
  exists env. split; [exact Henv|]. rewrite Hdrop. reflexivity.
Defined.

(** *** Examples of the further properties *)

(** X4, on the header of a stop_times.txt. *)
Lemma required_fields_then_times_witness :
  check_for_required_fields "stop_times"
    ["trip_id"; "arrival_time"; "departure_time"; "stop_id"; "stop_sequence"] "cta" = Ok tt
  ∧ is_ok (smarter_convert_times Z milli_float hms_str2sec slash_join ascii_decimal []
             ["trip_id"; "arrival_time"; "departure_time"; "stop_id"; "stop_sequence"]
             "stop_times.txt" "cta" ["arrival_time"; "departure_time"]) = true.
Proof.
  split; [reflexivity|].
  destruct (required_fields_then_times Z milli_float hms_str2sec slash_join ascii_decimal []
              ["trip_id"; "arrival_time"; "departure_time"; "stop_id"; "stop_sequence"]
              "stop_times.txt" "cta" "stop_times" ["arrival_time"; "departure_time"]
              (or_introl (conj eq_refl eq_refl)) eq_refl) as (i & j & Hconv & _).
  rewrite Hconv. reflexivity.
Defined.

(** X6, on a row of stops.txt with a column that is not in the registry. *)
Lemma drop_fields_alignment_witness :
  length ["S1"; "Main St"; "1"; "40.0"; "-75.0"]
  = length ["stop_id"; "stop_name"; "wheelchair_boarding"; "stop_lat"; "stop_lon"]
  ∧ ∃ env header out_row,
      make_remove_extra_fields "stops"
        ["stop_id"; "stop_name"; "wheelchair_boarding"; "stop_lat"; "stop_lon"] = Ok env
      ∧ drop_fields repr_printable env (str_list repr_printable)
          ["stop_id"; "stop_name"; "wheelchair_boarding"; "stop_lat"; "stop_lon"]
        = Ok header
      ∧ drop_fields repr_printable env (str_tuple repr_printable) ["S1"; "Main St"; "1"; "40.0"; "-75.0"]
        = Ok out_row
      ∧ zip header out_row
        = [("stop_id", "S1"); ("stop_name", "Main St"); ("stop_lat", "40.0");
           ("stop_lon", "-75.0")].
Proof.
  split; [reflexivity|].
  edestruct (drop_fields_alignment repr_printable (str_tuple repr_printable) "stops" _
               ["stop_id"; "stop_name"; "wheelchair_boarding"; "stop_lat"; "stop_lon"]
               ["S1"; "Main St"; "1"; "40.0"; "-75.0"] eq_refl eq_refl)
    as (env & header & out_row & Henv & Hheader & Hout & _ & Hzip & _).
  exists env, header, out_row.
  split; [exact Henv|]. split; [exact Hheader|]. split; [exact Hout | exact Hzip].
Defined.

(** X7, on a row of trips.txt that is too short and on one that is too
    long. *)
Lemma wrong_length_row_is_refused_witness :
  ∃ env,
    make_remove_extra_fields "trips" ["route_id"; "service_id"; "trip_id"] = Ok env
    ∧ length ["r1"; "s1"] ≠ length ["route_id"; "service_id"; "trip_id"]
    ∧ bind (make_add_agency_labels Z "cta" ["route_id"; "service_id"; "trip_id"]
              (text <$> ["r1"; "s1"]))
           (drop_fields repr_printable env (str_tuple (repr_value Z milli_repr repr_printable)))
      = Raise IndexError
    ∧ is_custom_error
        (bind (make_add_agency_labels Z "cta" ["route_id"; "service_id"; "trip_id"]
                 (text <$> ["r1"; "s1"; "t1"; "x"]))
              (drop_fields repr_printable env (str_tuple (repr_value Z milli_repr repr_printable)))) = true.
Proof.
  destruct (make_remove_extra_fields "trips" ["route_id"; "service_id"; "trip_id"])
    as [env|e] eqn:Henv; [|vm_compute in Henv; discriminate Henv].
  exists env. split; [reflexivity|]. split; [discriminate|]. split.
  - destruct (wrong_length_row_is_refused Z repr_printable
                (str_tuple (repr_value Z milli_repr repr_printable)) "cta"
                "trips" ["route_id"; "service_id"; "trip_id"] ["r1"; "s1"] env Henv)
      as (_ & Hshort & _); [discriminate|].
    apply Hshort. exists 2, "trip_id". split; [reflexivity|]. split; [reflexivity|].
    apply Nat.le_refl.
  - destruct (wrong_length_row_is_refused Z repr_printable
                (str_tuple (repr_value Z milli_repr repr_printable)) "cta"
                "trips" ["route_id"; "service_id"; "trip_id"] ["r1"; "s1"; "t1"; "x"] env
                Henv) as (_ & _ & _ & Hlong); [discriminate|].
    apply Hlong. simpl. apply Nat.lt_succ_diag_r.
Defined.

(** X8, on a row of stop_times.txt. *)
Lemma converted_row_is_labelled_witness :
  map_result (index ["trip_id"; "arrival_time"; "departure_time"; "stop_id"])
    ["arrival_time"; "departure_time"] = Ok [1; 2]
  ∧ convert_time_columns Z milli_float hms_str2sec slash_join ascii_decimal
      ["trip_id"; "arrival_time"; "departure_time"; "stop_id"] "stop_times.txt" "cta"
      [1; 2] (text <$> ["T9"; "08:05:00"; "100"; " S1 "])
    = Ok [text "T9"; VInt Z 29100; VFloat Z 100000%Z; text " S1 "]
  ∧ ∃ out,
      make_add_agency_labels Z "cta" ["trip_id"; "arrival_time"; "departure_time"; "stop_id"]
        [text "T9"; VInt Z 29100; VFloat Z 100000%Z; text " S1 "] = Ok out
      ∧ out !! 0 = Some (text "cta:T9")
      ∧ out !! 1 = Some (VInt Z 29100)
      ∧ out !! 3 = Some (text "cta:S1").
Proof.
  split; [reflexivity|]. split; [reflexivity|].
  destruct (converted_row_is_labelled Z milli_float hms_str2sec slash_join ascii_decimal "cta"
              ["trip_id"; "arrival_time"; "departure_time"; "stop_id"]
              "stop_times.txt" "cta" ["arrival_time"; "departure_time"] [1; 2]
              ["T9"; "08:05:00"; "100"; " S1 "]
              [text "T9"; VInt Z 29100; VFloat Z 100000%Z; text " S1 "] eq_refl)
    as (out & Hout & _ & Hget).
  { intros c Hc. apply elem_of_cons in Hc as [-> | Hc]; [reflexivity|].
    apply list_elem_of_singleton in Hc as ->. reflexivity. }
  { reflexivity. }
  { reflexivity. }
  exists out. split; [exact Hout|]. split; [|split].
  - exact (Hget 0 "trip_id" "T9" eq_refl eq_refl).
  - exact (Hget 1 "arrival_time" "08:05:00" eq_refl eq_refl).
  - exact (Hget 3 "stop_id" " S1 " eq_refl eq_refl).
Defined.

(** X12, on a row of stops.txt. *)
Lemma required_fields_then_row_checks_witness :
  check_for_required_fields "stops" ["stop_id"; "stop_name"; "stop_lat"; "stop_lon"] "cta"
  = Ok tt
  ∧ length ["S1"; "Main St"; "40.0"; "-75.0"]
    = length ["stop_id"; "stop_name"; "stop_lat"; "stop_lon"]
  ∧ (check_latlon_cols Z milli_float milli_lit Z.leb milli_repr
       ["stop_id"; "stop_name"; "stop_lat"; "stop_lon"] "stops.txt"
       (text <$> ["S1"; "Main St"; "40.0"; "-75.0"])
     = Ok (text <$> ["S1"; "Main St"; "40.0"; "-75.0"])
     ∨ ∃ msg,
         check_latlon_cols Z milli_float milli_lit Z.leb milli_repr
           ["stop_id"; "stop_name"; "stop_lat"; "stop_lon"] "stops.txt"
           (text <$> ["S1"; "Main St"; "40.0"; "-75.0"]) = Raise (CustomError msg)).
Proof.
  split; [reflexivity|]. split; [reflexivity|].
  destruct (required_fields_then_row_checks Z milli_float milli_lit Z.leb milli_repr
              eight_digits "stops" "cta" "stops.txt"
              ["stop_id"; "stop_name"; "stop_lat"; "stop_lon"]
              ["S1"; "Main St"; "40.0"; "-75.0"] eq_refl eq_refl) as [Hstops _].
  exact (Hstops eq_refl).
Defined.

(** X13, on the dates of two services. *)
Lemma starts_after_end_digits_witness :
  starts_after_end {["B" := "20170701"]} {["A" := "20170601"]} ("B", "A") = true
  ↔ (20170601 < 20170701)%Z.
Proof.
  apply (starts_after_end_digits {["B" := "20170701"]} {["A" := "20170601"]}
           "B" "A" "20170701" "20170601" 20170701 20170601);
    reflexivity.
Defined.

(** X14, on a row of trips.txt. *)
Lemma make_add_agency_labels_twice_witness :
  length [" 7 "; "1"] = length ["trip_id"; "direction_id"]
  ∧ ∃ once twice,
      make_add_agency_labels Z "cta" ["trip_id"; "direction_id"] (text <$> [" 7 "; "1"])
      = Ok once
      ∧ make_add_agency_labels Z "cta" ["trip_id"; "direction_id"] once = Ok twice
      ∧ twice !! 0 = Some (text "cta:cta:7")
      ∧ twice !! 1 = Some (text "1").
Proof.
  split; [reflexivity|].
  destruct (make_add_agency_labels_twice Z "cta" ["trip_id"; "direction_id"] [" 7 "; "1"]
              eq_refl) as (once & twice & Honce & Htwice & Hget).
  exists once, twice. split; [exact Honce|]. split; [exact Htwice|]. split.
  - exact (Hget 0 "trip_id" " 7 " eq_refl eq_refl).
  - exact (Hget 1 "direction_id" "1" eq_refl eq_refl).
Defined.

(** X15, on a trips.txt with a blank line. *)
Lemma handle_file_plain_table_witness :
  slash_basename (if endswith "cta/trips.txt" ".txt"
                  then drop_last4 "cta/trips.txt" else "cta/trips.txt") = "trips"
  ∧ handle_file Z milli_float milli_lit Z.leb milli_repr hms_str2sec eight_digits
      slash_join slash_basename ascii_decimal repr_printable trips_fs "cta/trips.txt" "c t a"
    = Ok ("trips", ["route_id"; "service_id"; "trip_id"],
          [[text "cta:R1"; text "cta:wk"; text "cta:T9"]]).
Proof.
  split; [reflexivity|].
  refine (handle_file_plain_table Z milli_float milli_lit Z.leb milli_repr hms_str2sec
            eight_digits slash_join slash_basename ascii_decimal repr_printable trips_fs "cta/trips.txt" "c t a" "trips"
            _ [[" route_id"; "service_id"; "trip_id"; "wheelchair"]; []; ["R1"; " wk"; "T9"; "1"]]
            [" route_id"; "service_id"; "trip_id"; "wheelchair"] [["R1"; " wk"; "T9"; "1"]]
            (or_introl eq_refl) eq_refl eq_refl eq_refl eq_refl eq_refl _).
  repeat constructor.
Defined.
